(** * PicoLogger: the logging scheduler and its HTTP control plane

    A shallow embedding of [PicoLogger/main.py] and [PicoLogger/capsense.py].

    - Python strings are [string]; the built-ins the program calls on them
      ([in], [split], [replace], [int], [float], f-string integer formats)
      are the functions of module [Py].
    - Python floats are modelled by exact rationals (plus [inf] and [nan]):
      binary rounding is not modelled.
    - [logging_status], the LED, the files under [logs/] and the printed log
      are the fields of [World]; the hardware (sensors, filesystem faults,
      clock) is an explicit environment that answers each call.
    - Every [await asyncio.sleep] is recorded in the trace together with the
      [logging_status] another task would read at that suspension point. *)

From Stdlib Require Import ZArith QArith Qround Ascii DecimalString.
From Stdlib Require String.
From stdpp Require Import gmap strings list fin_maps.

Local Open Scope Z_scope.

(** ** Python built-ins used by the program *)

Module Py.

(** [needle in hay] *)
Fixpoint contains (needle hay : string) : bool :=
  String.prefix needle hay ||
  match hay with
  | EmptyString => false
  | String _ t => contains needle t
  end.

Fixpoint drop_chars (n : nat) (s : string) : string :=
  match n, s with
  | O, _ => s
  | S k, String _ t => drop_chars k t
  | S _, EmptyString => EmptyString
  end.

(** [s.split(sep, 1)] when [sep] occurs in [s]: the text before and after
    the first occurrence; [None] when [sep] does not occur. *)
Fixpoint split_first (sep s : string) : option (string * string) :=
  if String.prefix sep s then Some (EmptyString, drop_chars (String.length sep) s)
  else match s with
       | EmptyString => None
       | String c t =>
           match split_first sep t with
           | Some (a, b) => Some (String c a, b)
           | None => None
           end
       end.

(** [s.split(sep)] for a one-character separator. *)
Fixpoint split (sep : ascii) (s : string) : list string :=
  match s with
  | EmptyString => [EmptyString]
  | String c t =>
      if Ascii.eqb c sep then EmptyString :: split sep t
      else match split sep t with
           | h :: r => String c h :: r
           | [] => [String c EmptyString]
           end
  end.

(** [s.replace(old, new)] for a non-empty [old]: left to right, matches do
    not overlap.  [skip] counts the characters of a match still to drop. *)
Fixpoint replace_from (old new s : string) (skip : nat) : string :=
  match s with
  | EmptyString => EmptyString
  | String c t =>
      match skip with
      | S k => replace_from old new t k
      | O =>
          if String.prefix old s
          then new +:+ replace_from old new t (Nat.pred (String.length old))
          else String c (replace_from old new t O)
      end
  end.

Definition replace (old new s : string) : string := replace_from old new s O.

(** [sep.join(l)] *)
Fixpoint join (sep : string) (l : list string) : string :=
  match l with
  | [] => EmptyString
  | [x] => x
  | x :: r => x +:+ sep +:+ join sep r
  end.

(** [s * n] *)
Fixpoint repeat_str (s : string) (n : nat) : string :=
  match n with
  | O => EmptyString
  | S k => s +:+ repeat_str s k
  end.

(** Whitespace stripped by [int] and [float]. *)
Definition is_space (c : ascii) : bool :=
  let n := nat_of_ascii c in
  (n =? 32)%nat || ((9 <=? n)%nat && (n <=? 13)%nat).

Fixpoint lstrip (s : string) : string :=
  match s with
  | String c t => if is_space c then lstrip t else s
  | EmptyString => EmptyString
  end.

Definition strip (s : string) : string :=
  String.rev (lstrip (String.rev (lstrip s))).

Definition digit_of (c : ascii) : option Z :=
  let n := nat_of_ascii c in
  if (48 <=? n)%nat && (n <=? 57)%nat then Some (Z.of_nat (n - 48)) else None.

Fixpoint digits_from (acc : Z) (s : string) : option Z :=
  match s with
  | EmptyString => Some acc
  | String c t =>
      match digit_of c with
      | Some d => digits_from (10 * acc + d) t
      | None => None
      end
  end.

(** A non-empty run of decimal digits. *)
Definition digits (s : string) : option Z :=
  match s with
  | EmptyString => None
  | _ => digits_from 0 s
  end.

(** An optional sign in front of [body]. *)
Definition signed {A} (body : string → option A) (neg : A → A) (s : string)
  : option A :=
  match s with
  | String "-" t => neg <$> body t
  | String "+" t => body t
  | _ => body s
  end.

(** [int(s)]: surrounding whitespace, an optional sign, decimal digits;
    [None] stands for [ValueError].  Digit-group underscores are not
    modelled and count as malformed. *)
Definition int (s : string) : option Z := signed digits Z.opp (strip s).

(** Python floats: exact rationals, infinities and nan. *)
Inductive pyfloat :=
| Finite (q : Q)
| Inf (negative : bool)
| NaN.

Definition fneg (x : pyfloat) : pyfloat :=
  match x with
  | Finite q => Finite (Qopp q)
  | Inf b => Inf (negb b)
  | NaN => NaN
  end.

Definition lower (c : ascii) : ascii :=
  let n := nat_of_ascii c in
  if (65 <=? n)%nat && (n <=? 90)%nat then ascii_of_nat (n + 32) else c.

Fixpoint lower_str (s : string) : string :=
  match s with
  | EmptyString => EmptyString
  | String c t => String (lower c) (lower_str t)
  end.

(** [digits "." digits], at least one digit in total. *)
Definition mantissa (s : string) : option Q :=
  match split_first "." s with
  | None => (λ n, inject_Z n) <$> digits s
  | Some (ip, fp) =>
      match ip, fp with
      | EmptyString, EmptyString => None
      | _, _ =>
          i ← digits_from 0 ip;
          f ← digits_from 0 fp;
          let scale := 10 ^ Z.of_nat (String.length fp) in
          Some (Qmake (i * scale + f) (Z.to_pos scale))
      end
  end.

Definition pow10 (e : Z) : Q :=
  if 0 <=? e then inject_Z (10 ^ e) else Qmake 1 (Z.to_pos (10 ^ (- e))).

Definition unsigned_float (s : string) : option pyfloat :=
  let l := lower_str s in
  if String.eqb l "inf" || String.eqb l "infinity" then Some (Inf false)
  else if String.eqb l "nan" then Some NaN
  else match split_first "e" l with
       | None => Finite <$> mantissa l
       | Some (m, e) =>
           q ← mantissa m;
           x ← signed digits Z.opp e;
           Some (Finite (Qmult q (pow10 x)))
       end.

(** [float(s)]; [None] stands for [ValueError]. *)
Definition float (s : string) : option pyfloat :=
  signed unsigned_float fneg (strip s).

(** [str(n)] for an integer. *)
Definition str_int (n : Z) : string := NilZero.string_of_int (Z.to_int n).

(** [f"{n:0<w>d}"]: zero padding to width [w], the sign counted in it. *)
Definition zfill (w : nat) (s : string) : string :=
  repeat_str "0" (w - String.length s) +:+ s.

Definition fmt_0d (w : nat) (n : Z) : string :=
  let ds := NilZero.string_of_uint (N.to_uint (Z.abs_N n)) in
  if n <? 0 then "-" +:+ zfill (Nat.pred w) ds else zfill w ds.

(** Float arithmetic on finite values: [x // y], [x % y], [int(x)]. *)
Definition floordiv (x : Q) (y : Z) : Z := Qfloor (Qdiv x (inject_Z y)).
Definition fmod (x : Q) (y : Z) : Q := Qminus x (inject_Z (y * floordiv x y)).
Definition trunc (x : Q) : Z := Z.quot (Qnum x) (Zpos (Qden x)).

End Py.

(** Exceptions are modelled by [option]: [None] is a raised [Exception]. *)

Fixpoint foldM {A S} (f : S → A → option S) (s : S) (l : list A) : option S :=
  match l with
  | [] => Some s
  | x :: r => s' ← f s x; foldM f s' r
  end.

(** ** capsense.py *)

Module Capsense.

Record Config := {
  sensor_address : Z;
  register : Z;
  num_sensors : nat;
  values_per_sensor : nat;
  value_size : nat;
  sensor_names : list string;
  value_names : list string
}.

Definition DEFAULT_CONFIG : Config := {|
  sensor_address := 9;
  register := 0;
  num_sensors := 3;
  values_per_sensor := 3;
  value_size := 2;
  sensor_names := ["CSD_360"; "CSD_100"; "CSD_20"];
  value_names := ["RawCount"; "DiffCount"; "Baseline"]
|}.

(** [self.config], [self.is_available]; the I2C bus is the environment. *)
Record CapsenseReader := {
  config : Config;
  is_available : bool
}.

Definition buffer_size (r : CapsenseReader) : nat :=
  (num_sensors (config r) * values_per_sensor (config r) * value_size (config r))%nat.

(** [read_raw_data]: [bus] is what [i2c.readfrom_mem] answers, [None] when
    it raises. *)
Definition read_raw_data (r : CapsenseReader) (bus : option (list Z))
  : option (list Z) :=
  if is_available r then
    data ← bus;
    if (length data =? buffer_size r)%nat then Some data else None
  else None.

(** [struct.unpack('<nH', raw)]: [n] little-endian 16-bit values out of
    exactly [2 * n] bytes. *)
Fixpoint le16 (raw : list Z) : list Z :=
  match raw with
  | lo :: hi :: rest => (lo + 256 * hi) :: le16 rest
  | _ => []
  end.

Definition unpack_H (n : nat) (raw : list Z) : option (list Z) :=
  if (length raw =? 2 * n)%nat then Some (le16 raw) else None.

Definition index_to_sensor : gmap nat string :=
  <[0%nat := "CSD_360"]> (<[1%nat := "CSD_100"]> (<[2%nat := "CSD_20"]> ∅)).

(** Python's [enumerate]. *)
Definition enumerate {A} (l : list A) : list (nat * A) := zip (seq 0 (length l)) l.

(** [read_sensor_data]: a dict of dicts, sensor name to value name to
    value.  Every failed lookup is a [KeyError] or [IndexError]. *)
Definition read_sensor_data (r : CapsenseReader) (bus : option (list Z))
  : option (gmap string (gmap string Z)) :=
  raw_data ← read_raw_data r bus;
  let total_values := (num_sensors (config r) * values_per_sensor (config r))%nat in
  values ← unpack_H total_values raw_data;
  let ns := num_sensors (config r) in
  let sensor_data0 : gmap string (gmap string Z) :=
    foldl (λ d sensor_name, <[sensor_name := ∅]> d) ∅
          (take ns (sensor_names (config r))) in
  foldM (λ sensor_data i,
           sensor_name ← index_to_sensor !! i;
           foldM (λ sensor_data '(j, value_name),
                    let value_index := (j * ns + i)%nat in
                    inner ← sensor_data !! sensor_name;
                    v ← values !! value_index;
                    Some (<[sensor_name := <[value_name := v]> inner]> sensor_data))
                 sensor_data (enumerate (value_names (config r))))
        sensor_data0 (seq 0 ns).

(** The pairs the two CSV functions iterate over, in order. *)
Definition columns (r : CapsenseReader) : list (string * string) :=
  sensor_name ← take (num_sensors (config r)) (sensor_names (config r));
  value_name ← take (values_per_sensor (config r)) (value_names (config r));
  [(sensor_name, value_name)].

Definition get_csv_header (r : CapsenseReader) : string :=
  Py.join "," ((λ '(sensor_name, value_name), sensor_name +:+ "_" +:+ value_name)
                 <$> columns r).

(** [get_csv_string]: any exception inside is caught and [None] returned. *)
Definition get_csv_string (r : CapsenseReader) (bus : option (list Z))
  : option string :=
  data ← read_sensor_data r bus;
  values ← mapM (λ '(sensor_name, value_name),
                   inner ← data !! sensor_name;
                   v ← inner !! value_name;
                   Some (Py.str_int v))
                (columns r);
  Some (Py.join "," values).

End Capsense.

(** ** main.py: shared state *)

(** The dict [logging_status]; [ls_type] is its key ['type'] (the spec's
    [kind]), [""] when none. *)
Record LoggingStatus := {
  ls_active : bool;
  ls_label : string;
  ls_start_time : Z;
  ls_duration : Z;
  ls_type : string
}.

Definition initial_status : LoggingStatus :=
  {| ls_active := false; ls_label := ""; ls_start_time := 0; ls_duration := 0;
     ls_type := "" |}.

Definition set_active (b : bool) (s : LoggingStatus) : LoggingStatus :=
  {| ls_active := b; ls_label := ls_label s; ls_start_time := ls_start_time s;
     ls_duration := ls_duration s; ls_type := ls_type s |}.

Definition set_label (l : string) (s : LoggingStatus) : LoggingStatus :=
  {| ls_active := ls_active s; ls_label := l; ls_start_time := ls_start_time s;
     ls_duration := ls_duration s; ls_type := ls_type s |}.

(** The [await asyncio.sleep] calls of the two session coroutines. *)
Inductive SleepPoint :=
| AfterTick (i : nat)
| BetweenRuns (i : Z).

(** The lines the session coroutines print that tell the exit path. *)
Inductive Message :=
| MsgStopping
| MsgFileCreateError
| MsgFileOpenError
| MsgComplete (successful_samples total_samples : Z)
| MsgCritical
| MsgBatchFinished.

(** What a run does, in order.  [EvSensors i] is the sensor read of tick [i],
    [EvAppend i row ok] its [log_file.write], [EvSleep p seen] a suspension
    point with the [logging_status] a concurrent task reads there. *)
Inductive Event :=
| EvSensors (i : nat)
| EvAppend (i : nat) (row : string) (ok : bool)
| EvSleep (p : SleepPoint) (seen : LoggingStatus)
| EvPrint (m : Message).

Record World := {
  logging_status : LoggingStatus;
  led : bool;
  files : gmap string string;
  log_file : option string;
  trace : list Event
}.

Definition initial_world : World :=
  {| logging_status := initial_status; led := false; files := ∅;
     log_file := None; trace := [] |}.

Definition with_status (f : LoggingStatus → LoggingStatus) (w : World) : World :=
  {| logging_status := f (logging_status w); led := led w; files := files w;
     log_file := log_file w; trace := trace w |}.

Definition with_led (b : bool) (w : World) : World :=
  {| logging_status := logging_status w; led := b; files := files w;
     log_file := log_file w; trace := trace w |}.

Definition with_files (fs : gmap string string) (w : World) : World :=
  {| logging_status := logging_status w; led := led w; files := fs;
     log_file := log_file w; trace := trace w |}.

Definition with_log_file (h : option string) (w : World) : World :=
  {| logging_status := logging_status w; led := led w; files := files w;
     log_file := h; trace := trace w |}.

Definition emit (e : Event) (w : World) : World :=
  {| logging_status := logging_status w; led := led w; files := files w;
     log_file := log_file w; trace := trace w ++ [e] |}.

Definition sleep (p : SleepPoint) (w : World) : World :=
  emit (EvSleep p (logging_status w)) w.

(** ** main.py: the environment of one logging session *)

(** What the hardware answers during one tick: the BME280 triple ([None]
    when the driver raises), the capsense I2C read, whether the tick body
    raises before the write (the outer [except] of the loop), and whether
    [log_file.write] and [flush] succeed. *)
Record TickEnv := {
  bme : option (string * string * string);
  i2c : option (list Z);
  body_raises : bool;
  write_ok : bool
}.

Inductive CreateOutcome :=
| Created
| OpenRaises
| HeaderWriteRaises.

#[global] Instance CreateOutcome_eq_dec : EqDecision CreateOutcome.
Proof. solve_decision. Defined.

Record RunEnv := {
  now : Z;
  create : CreateOutcome;
  reopen_ok : bool;
  tick : nat → TickEnv
}.

(** ** main.py: sensors *)

Definition getBMEdata (te : TickEnv) : string * string * string :=
  match bme te with
  | Some r => r
  | None => ("ERROR", "ERROR", "ERROR")
  end.

(** [get_capsense_data]; [get_csv_string] catches every exception itself, so
    the ["ERROR"] branch of the source is never taken. *)
Definition get_capsense_data (capsense_reader : option Capsense.CapsenseReader)
    (te : TickEnv) : string :=
  match capsense_reader with
  | None => Py.repeat_str "NO_SENSOR," 11 +:+ "NO_SENSOR"
  | Some r =>
      match Capsense.get_csv_string r (i2c te) with
      | Some (String c t) => String c t
      | Some EmptyString | None => Py.repeat_str "EMPTY," 11 +:+ "EMPTY"
      end
  end.

(** ** main.py: [execute_logging] *)

Definition MAX_CONSECUTIVE_ERRORS : Z := 5.

Definition log_path (label : string) : string := "logs/" +:+ label +:+ ".csv".

(** [a, b = map(int, s.split(sep))] and the three-name form. *)
Definition parse_pair (sep : ascii) (s : string) : option (Z * Z) :=
  match Py.split sep s with
  | [a; b] => x ← Py.int a; y ← Py.int b; Some (x, y)
  | _ => None
  end.

Definition parse_triple (sep : ascii) (s : string) : option (Z * Z * Z) :=
  match Py.split sep s with
  | [a; b; c] => x ← Py.int a; y ← Py.int b; z ← Py.int c; Some (x, y, z)
  | _ => None
  end.

(** [1.0 / sample_rate]; [None] is [ZeroDivisionError]. *)
Definition interval_of (sample_rate : Py.pyfloat) : option Py.pyfloat :=
  match sample_rate with
  | Py.Finite q => if Qeq_bool q 0 then None else Some (Py.Finite (Qinv q))
  | Py.Inf _ => Some (Py.Finite 0)
  | Py.NaN => Some Py.NaN
  end.

(** [int(duration * sample_rate)]; [int] raises on [inf] and [nan]. *)
Definition total_samples_of (duration : Z) (sample_rate : Py.pyfloat) : option Z :=
  match sample_rate with
  | Py.Finite q => Some (Py.trunc (Qmult (inject_Z duration) q))
  | _ => None
  end.

Definition csv_header (capsense_reader : option Capsense.CapsenseReader) : string :=
  let capsense_header :=
    match capsense_reader with
    | Some r => Capsense.get_csv_header r
    | None => "capsense_unavailable"
    end in
  "Time,BME280_temperature,BME280_humidity,BME280_pressure," +:+ capsense_header
  +:+ String "010" EmptyString.

(** The [while new_day > 30] loop; [fuel] bounds its iterations. *)
Fixpoint rollover (fuel : nat) (new_year new_month new_day : Z) : Z * Z * Z :=
  match fuel with
  | O => (new_year, new_month, new_day)
  | S k =>
      if 30 <? new_day then
        let new_day := new_day - 30 in
        let new_month := new_month + 1 in
        if 12 <? new_month then rollover k (new_year + 1) 1 new_day
        else rollover k new_year new_month new_day
      else (new_year, new_month, new_day)
  end.

(** The timestamp of sample [i]. *)
Definition datetime_str (year month day start_seconds : Z) (interval : Q) (i : nat)
  : string :=
  let current_total_seconds :=
    Qplus (inject_Z start_seconds) (Qmult (inject_Z (Z.of_nat i)) interval) in
  let current_day_offset := Py.floordiv current_total_seconds 86400 in
  let current_seconds_in_day := Py.fmod current_total_seconds 86400 in
  let current_hours := Py.floordiv current_seconds_in_day 3600 in
  let current_minutes := Py.floordiv (Py.fmod current_seconds_in_day 3600) 60 in
  let current_seconds := Py.trunc (Py.fmod current_seconds_in_day 60) in
  let current_milliseconds :=
    Py.trunc (Qmult (Py.fmod current_seconds_in_day 1) (inject_Z 1000)) in
  let '(y, m, d) :=
    if current_day_offset =? 0 then (year, month, day)
    else let new_day := day + current_day_offset in
         rollover (Z.to_nat new_day) year month new_day in
  let current_date := Py.fmt_0d 4 y +:+ "-" +:+ Py.fmt_0d 2 m +:+ "-" +:+ Py.fmt_0d 2 d in
  current_date +:+ " " +:+ Py.fmt_0d 2 current_hours +:+ ":" +:+ Py.fmt_0d 2 current_minutes
  +:+ ":" +:+ Py.fmt_0d 2 current_seconds +:+ "." +:+ Py.fmt_0d 3 current_milliseconds.

Definition log_entry (capsense_reader : option Capsense.CapsenseReader)
    (year month day start_seconds : Z) (interval : Q) (i : nat) (te : TickEnv)
  : string :=
  let '(temperature, humidity, pressure) := getBMEdata te in
  let capsense_csv := get_capsense_data capsense_reader te in
  datetime_str year month day start_seconds interval i +:+ "," +:+ temperature +:+ ","
  +:+ humidity +:+ "," +:+ pressure +:+ "," +:+ capsense_csv +:+ String "010" EmptyString.

(** [open(path, "a")] followed by [write]: the text goes to the end. *)
Definition append_file (path text : string) (fs : gmap string string)
  : gmap string string :=
  <[path := default "" (fs !! path) +:+ text]> fs.

(** The local counters of the sampling loop, with the world. *)
Record Loop := {
  successful_samples : Z;
  failed_samples : Z;
  consecutive_errors : Z;
  world : World
}.

Definition loop_start (w : World) : Loop :=
  {| successful_samples := 0; failed_samples := 0; consecutive_errors := 0;
     world := w |}.

Definition on_world (f : World → World) (st : Loop) : Loop :=
  {| successful_samples := successful_samples st;
     failed_samples := failed_samples st;
     consecutive_errors := consecutive_errors st;
     world := f (world st) |}.

Definition tick_succeeded (st : Loop) : Loop :=
  {| successful_samples := successful_samples st + 1;
     failed_samples := failed_samples st;
     consecutive_errors := 0;
     world := world st |}.

Definition tick_failed (st : Loop) : Loop :=
  {| successful_samples := successful_samples st;
     failed_samples := failed_samples st + 1;
     consecutive_errors := consecutive_errors st + 1;
     world := world st |}.

Section Session.

Variable capsense_reader : option Capsense.CapsenseReader.
Variable env : RunEnv.
Variables (label : string) (year month day start_seconds : Z) (interval : Q).

(** The body of the [for] loop after the threshold test, without the
    final sleep: sensor reads, row, write. *)
Definition tick_work (i : nat) (st : Loop) : Loop :=
  let te := tick env i in
  let st := on_world (emit (EvSensors i)) st in
  if body_raises te then tick_failed st
  else
    let entry := log_entry capsense_reader year month day start_seconds interval i te in
    if write_ok te then
      tick_succeeded
        (on_world (λ w, emit (EvAppend i entry true)
                          (with_files (append_file (log_path label) entry (files w)) w))
                  st)
    else tick_failed (on_world (emit (EvAppend i entry false)) st).

(** [for i in range(total_samples)], given as the list of its indices;
    the threshold test at the top of the body is the [break]. *)
Fixpoint sample_loop (indices : list nat) (st : Loop) : Loop :=
  match indices with
  | [] => st
  | i :: rest =>
      if MAX_CONSECUTIVE_ERRORS <=? consecutive_errors st
      then on_world (emit (EvPrint MsgStopping)) st
      else sample_loop rest (on_world (sleep (AfterTick i)) (tick_work i st))
  end.

End Session.

(** [with open(path, "w") as f: f.write(header)]: the files afterwards and
    whether the block completed.  Opening with ["w"] empties the file before
    anything is written. *)
Definition write_header (outcome : CreateOutcome) (path header : string)
    (fs : gmap string string) : gmap string string * bool :=
  match outcome with
  | Created => (<[path := header]> fs, true)
  | HeaderWriteRaises => (<[path := ""]> fs, false)
  | OpenRaises => (fs, false)
  end.

(** [range(n)] *)
Definition range (n : Z) : list nat := seq 0 (Z.to_nat n).

(** What the [try] block computes before it touches the file; [None] is an
    exception raised there. *)
Record Plan := {
  p_year : Z; p_month : Z; p_day : Z;
  p_start_seconds : Z;
  p_interval : Q;
  p_total_samples : Z
}.

Definition plan (duration : Z) (sample_rate : Py.pyfloat)
    (clock_time start_date : string) : option Plan :=
  '(year, month, day) ← parse_triple "-" start_date;
  '(hours, minutes) ← parse_pair ":" clock_time;
  let start_seconds := hours * 3600 + minutes * 60 in
  interval ← interval_of sample_rate;
  total_samples ← total_samples_of duration sample_rate;
  match interval with
  | Py.Finite iv =>
      Some {| p_year := year; p_month := month; p_day := day;
              p_start_seconds := start_seconds; p_interval := iv;
              p_total_samples := total_samples |}
  | _ => None
  end.

Definition execute_logging (capsense_reader : option Capsense.CapsenseReader)
    (env : RunEnv) (duration : Z) (sample_rate : Py.pyfloat)
    (label clock_time start_date : string) (w : World) : World :=
  let w := with_status (λ _, {| ls_active := true; ls_label := label;
                                ls_start_time := now env; ls_duration := duration;
                                ls_type := "single" |}) w in
  let w := with_led true w in
  let w :=
    match plan duration sample_rate clock_time start_date with
    | None =>
        (* except Exception *)
        with_status (set_active false) (emit (EvPrint MsgCritical) w)
    | Some p =>
        let '(fs, ok) := write_header (create env) (log_path label)
                           (csv_header capsense_reader) (files w) in
        let w := with_files fs w in
        if ok then
          if reopen_ok env then
            let w := with_log_file (Some (log_path label)) w in
            let st := sample_loop capsense_reader env label (p_year p) (p_month p)
                        (p_day p) (p_start_seconds p) (p_interval p)
                        (range (p_total_samples p)) (loop_start w) in
            let w := with_log_file None (world st) in
            let w := emit (EvPrint (MsgComplete (successful_samples st)
                                                (p_total_samples p))) w in
            with_status (λ s, set_label "" (set_active false s)) w
          else
            with_status (set_active false) (emit (EvPrint MsgFileOpenError) w)
        else
          with_status (set_active false) (emit (EvPrint MsgFileCreateError) w)
    end in
  (* finally *)
  with_led false w.

(** ** main.py: [record_batch_data] *)

(** A coroutine whose exception nobody catches ends its task. *)
Inductive Outcome :=
| Returned
| Raised.

Record BatchEnv := {
  batch_now : Z;
  run_env : Z → RunEnv
}.

(** The clock time handed to sub-run [i]; [None] when [clock_time] does not
    parse (the exception is not caught in [record_batch_data]).
    [batch_start_seconds] is computed as in the source, where nothing reads
    it afterwards. *)
Definition batch_clock_time (duration : Z) (clock_time : string) (i : Z)
  : option string :=
  let batch_start_seconds := if 1 <? i then (i - 1) * (duration + 2) else 0 in
  '(hours, minutes) ← parse_pair ":" clock_time;
  let start_seconds := hours * 3600 + minutes * 60 in
  let new_hours := (start_seconds / 3600) mod 24 in
  let new_minutes := (start_seconds mod 3600) / 60 in
  Some (Py.fmt_0d 2 new_hours +:+ ":" +:+ Py.fmt_0d 2 new_minutes).

Section Batch.

Variable capsense_reader : option Capsense.CapsenseReader.
Variable benv : BatchEnv.
Variables (duration : Z) (sample_rate : Py.pyfloat).
Variables (label clock_time start_date : string).

(** [for i in range(1, 5)], given as the list of its indices. *)
Fixpoint batch_loop (indices : list Z) (w : World) : World * Outcome :=
  match indices with
  | [] => (w, Returned)
  | i :: rest =>
      let batch_label := label +:+ "_" +:+ Py.str_int i in
      match batch_clock_time duration clock_time i with
      | None => (w, Raised)
      | Some bct =>
          let w := execute_logging capsense_reader (run_env benv i) duration
                     sample_rate batch_label bct start_date w in
          let w := if i <? 4 then sleep (BetweenRuns i) w else w in
          batch_loop rest w
      end
  end.

Definition record_batch_data (w : World) : World * Outcome :=
  let w := with_status (λ _, {| ls_active := true; ls_label := label;
                                ls_start_time := batch_now benv;
                                ls_duration := duration * 4 + 6;
                                ls_type := "batch" |}) w in
  match batch_loop [1; 2; 3; 4] w with
  | (w, Returned) =>
      (emit (EvPrint MsgBatchFinished)
         (with_status (λ s, set_label "" (set_active false s)) w), Returned)
  | (w, Raised) => (w, Raised)
  end.

End Batch.

(** ** main.py: the request handler inside [http_server] *)

Definition CRLF : string := String "013" (String "010" EmptyString).

Definition parse_form_data (body : string) : gmap string string :=
  match body with
  | EmptyString => ∅
  | _ =>
      foldl (λ data pair,
               match Py.split_first "=" pair with
               | Some (key, value) =>
                   let value := Py.replace "%2D" "-"
                                  (Py.replace "%3A" ":" (Py.replace "%20" " " value)) in
                   <[key := value]> data
               | None => data
               end)
            ∅ (Py.split "&" body)
  end.

(** [data.get(key, dflt)] *)
Definition get (data : gmap string string) (key dflt : string) : string :=
  default dflt (data !! key).

(** The coroutine handed to [asyncio.create_task], with its arguments. *)
Inductive Task :=
| ExecuteLogging (duration : Z) (sample_rate : Py.pyfloat)
                 (label clock_time start_date : string)
| RecordBatchData (duration : Z) (sample_rate : Py.pyfloat)
                  (label clock_time start_date : string).

(** What handling one connection did: the text passed to [cl.send] (if the
    handler got that far), the task created, and whether [cl.close] ran. *)
Record Reply := {
  sent : option string;
  spawned : option Task;
  closed : bool
}.

Definition http_head (status content_type : string) : string :=
  "HTTP/1.1 " +:+ status +:+ CRLF +:+ "Content-Type: " +:+ content_type +:+ CRLF
  +:+ "Connection: close" +:+ CRLF +:+ CRLF.

Definition status_text (t : Z) (st : LoggingStatus) : string :=
  if ls_active st then
    let elapsed := t - ls_start_time st in
    let remaining := Z.max 0 (ls_duration st - elapsed) in
    "ACTIVE: " +:+ ls_type st +:+ " '" +:+ ls_label st +:+ "' - " +:+ Py.str_int elapsed
    +:+ "s elapsed, " +:+ Py.str_int remaining +:+ "s remaining"
  else "IDLE".

(** The five branches of the [if]/[elif] chain, in its order. *)
Inductive Route :=
| RootPage
| StartLogging
| StartBatch
| Status
| NotFound.

Definition route (headers : string) : Route :=
  if Py.contains "GET / " headers || Py.contains "GET / HTTP/1.1" headers then RootPage
  else if Py.contains "POST" headers && Py.contains "/start_logging" headers then StartLogging
  else if Py.contains "POST" headers && Py.contains "/start_batch" headers then StartBatch
  else if Py.contains "GET /status" headers then Status
  else NotFound.

(** The five form fields as the handler reads them; [None] when [int] or
    [float] raises. *)
Definition form_arguments (data : gmap string string) (default_label : string)
  : option (Z * Py.pyfloat * string * string * string) :=
  duration ← Py.int (get data "duration" "60");
  sample_rate ← Py.float (get data "sample_rate" "0.1");
  let label := get data "label" default_label in
  let clock_time := get data "clock_time" "12:00" in
  let start_date := get data "date" "2024-01-01" in
  Some (duration, sample_rate, label, clock_time, start_date).

(** The [try]/[except]/[finally] around one accepted connection, given the
    [(headers, body)] that [read_http_request] returned. *)
Definition handle_request (html : string) (t : Z) (st : LoggingStatus)
    (headers body : string) : Reply :=
  let answer : option (string * option Task) :=
    match route headers with
    | RootPage => Some (http_head "200 OK" "text/html" +:+ html, None)
    | StartLogging =>
        '(duration, sample_rate, label, clock_time, start_date) ←
          form_arguments (parse_form_data body) "default";
        Some (http_head "200 OK" "text/plain" +:+ "OK",
              Some (ExecuteLogging duration sample_rate label clock_time start_date))
    | StartBatch =>
        '(duration, sample_rate, label, clock_time, start_date) ←
          form_arguments (parse_form_data body) "batch";
        Some (http_head "200 OK" "text/plain" +:+ "OK",
              Some (RecordBatchData duration sample_rate label clock_time start_date))
    | Status => Some (http_head "200 OK" "text/plain" +:+ status_text t st, None)
    | NotFound => Some (http_head "404 Not Found" "text/plain" +:+ "Not Found", None)
    end in
  match answer with
  | Some (response, task) => {| sent := Some response; spawned := task; closed := true |}
  | None => {| sent := None; spawned := None; closed := true |}
  end.

(** ** The writes to [logging_status], one constructor per assignment block
    of the two coroutines *)

Inductive status_step : LoggingStatus → LoggingStatus → Prop :=
| step_single_start s label t duration :
    status_step s {| ls_active := true; ls_label := label; ls_start_time := t;
                     ls_duration := duration; ls_type := "single" |}
| step_batch_start s label t duration :
    status_step s {| ls_active := true; ls_label := label; ls_start_time := t;
                     ls_duration := duration * 4 + 6; ls_type := "batch" |}
| step_failed s :
    status_step s (set_active false s)
| step_finished s :
    status_step s (set_label "" (set_active false s)).

(** The states some interleaving of session coroutines can produce. *)
Definition reachable (s : LoggingStatus) : Prop := rtc status_step initial_status s.

(** ** Readings of the trace and of the CSV text *)

(** Number of comma-separated fields of one CSV line. *)
Definition field_count (line : string) : nat := length (Py.split "," line).

Definition appended_rows (tr : list Event) : list string :=
  omap (λ e, match e with EvAppend _ row true => Some row | _ => None end) tr.

Definition seen_statuses (tr : list Event) : list LoggingStatus :=
  omap (λ e, match e with EvSleep _ seen => Some seen | _ => None end) tr.

Definition works_on (i : nat) (e : Event) : bool :=
  match e with
  | EvSensors j | EvAppend j _ _ => (j =? i)%nat
  | _ => false
  end.

(** The events a step added to the trace. *)
Definition new_events (before after : World) : list Event :=
  drop (length (trace before)) (trace after).

(** The text a list of rows occupies in a file. *)
Definition rows_text (rows : list string) : string := foldr String.append "" rows.

(** A sleep between two ticks, seen with status [s]; any other event. *)
Definition tick_sleep (s : LoggingStatus) (e : Event) : Prop :=
  match e with
  | EvSleep p seen => (∃ i, p = AfterTick i) ∧ seen = s
  | _ => True
  end.

(** What one tick adds to the trace. *)
Definition tick_events (capsense_reader : option Capsense.CapsenseReader)
    (env : RunEnv) (year month day start_seconds : Z) (interval : Q) (i : nat)
  : list Event :=
  let te := tick env i in
  EvSensors i ::
  (if body_raises te then []
   else [EvAppend i (log_entry capsense_reader year month day start_seconds interval i te)
                  (write_ok te)]).

(** The status [execute_logging] writes on entry. *)
Definition started (env : RunEnv) (duration : Z) (label : string) : LoggingStatus :=
  {| ls_active := true; ls_label := label; ls_start_time := now env;
     ls_duration := duration; ls_type := "single" |}.

(** Whether the consecutive-error stop was printed. *)
Definition stopped (tr : list Event) : bool :=
  existsb (λ e, match e with EvPrint MsgStopping => true | _ => false end) tr.

(** A suspension point between two sub-runs of a batch at which the status
    reads idle; any other event. *)
Definition idle_gap (e : Event) : Prop :=
  match e with
  | EvSleep (BetweenRuns _) seen => ls_active seen = false
  | _ => True
  end.

(** The ticks the loop counts as failed: an exception in the body or in the
    write. *)
Definition tick_fails (te : TickEnv) : bool := body_raises te || negb (write_ok te).

(** A tick in which a sensor driver raised. *)
Definition sensor_read_fails (te : TickEnv) : bool :=
  match bme te, i2c te with
  | Some _, Some _ => false
  | _, _ => true
  end.


Definition default_label (r : Route) : string :=
  match r with
  | StartBatch => "batch"
  | _ => "default"
  end.

Definition ok_response : string := http_head "200 OK" "text/plain" +:+ "OK".

Definition not_found_response : string :=
  http_head "404 Not Found" "text/plain" +:+ "Not Found".

(** Number of commas of a text. *)
Fixpoint commas (s : string) : nat :=
  match s with
  | EmptyString => O
  | String c t => if Ascii.eqb c "," then S (commas t) else commas t
  end.

(** ** Sample environments *)

(** The reader [main.py] builds: default configuration, sensor found. *)
Definition default_reader : Capsense.CapsenseReader :=
  {| Capsense.config := Capsense.DEFAULT_CONFIG; Capsense.is_available := true |}.

Definition healthy_tick : TickEnv :=
  {| bme := Some ("23.45C", "40.00%", "1013.25hPa");
     i2c := Some [1; 0; 2; 0; 3; 0; 4; 0; 5; 0; 6; 0; 7; 0; 8; 0; 9; 1];
     body_raises := false; write_ok := true |}.

(** Both sensor drivers raise; the file is fine. *)
Definition sensors_down_tick : TickEnv :=
  {| bme := None; i2c := None; body_raises := false; write_ok := true |}.

(** The sensors answer; the write raises. *)
Definition write_fails_tick : TickEnv :=
  {| bme := bme healthy_tick; i2c := i2c healthy_tick;
     body_raises := false; write_ok := false |}.

Definition env_of (te : TickEnv) : RunEnv :=
  {| now := 1000; create := Created; reopen_ok := true; tick := λ _, te |}.

Definition no_directory_env : RunEnv :=
  {| now := 1000; create := OpenRaises; reopen_ok := true; tick := λ _, healthy_tick |}.

Definition healthy_batch : BatchEnv :=
  {| batch_now := 1000; run_env := λ _, env_of healthy_tick |}.

(** Whether a session reaches the sampling loop. *)
Definition reaches_sampling (env : RunEnv) (duration : Z) (sample_rate : Py.pyfloat)
    (clock_time start_date : string) : bool :=
  match plan duration sample_rate clock_time start_date with
  | Some _ => bool_decide (create env = Created) && reopen_ok env
  | None => false
  end.

(** [bme] answers texts that hold no comma. *)
Definition bme_plain (te : TickEnv) : Prop :=
  match bme te with
  | Some (t, h, p) => commas t = 0%nat ∧ commas h = 0%nat ∧ commas p = 0%nat
  | None => True
  end.

(** The seconds since midnight at which sub-run [i] starts its timestamps:
    what [execute_logging] reads back from the clock time it is handed. *)
Definition sub_run_start_seconds (duration : Z) (clock_time : string) (i : Z)
  : option Z :=
  bct ← batch_clock_time duration clock_time i;
  '(hours, minutes) ← parse_pair ":" bct;
  Some (hours * 3600 + minutes * 60).

(** The same instant as the specification words it: the requested clock
    time plus [(i-1)*(duration+2)] seconds, wrapped at 24 hours. *)
Definition spec_start_seconds (duration : Z) (clock_time : string) (i : Z)
  : option Z :=
  '(hours, minutes) ← parse_pair ":" clock_time;
  Some ((hours * 3600 + minutes * 60 + (i - 1) * (duration + 2)) mod 86400).

Definition newline : string := String "010" EmptyString.

(** ** The routes of the interface table, read on method and path *)

(** Method and path of the request line. *)
Definition method_and_path (headers : string) : option (string * string) :=
  let request_line :=
    match Py.split_first CRLF headers with
    | Some (line, _) => line
    | None => headers
    end in
  match Py.split " " request_line with
  | method :: path :: _ => Some (method, path)
  | _ => None
  end.

(** The four routes of the table of external interfaces. *)
Definition table_routes : list (string * string) :=
  [("GET", "/"); ("POST", "/start_logging"); ("POST", "/start_batch"); ("GET", "/status")].

(** ** Further readings of a session *)


(** The indices of the sleeps between sub-runs, in the order they happen. *)
Definition gaps (tr : list Event) : list Z :=
  omap (λ e, match e with EvSleep (BetweenRuns i) _ => Some i | _ => None end) tr.

(** The status [record_batch_data] writes on entry. *)
Definition batch_started (benv : BatchEnv) (duration : Z) (label : string)
  : LoggingStatus :=
  {| ls_active := true; ls_label := label; ls_start_time := batch_now benv;
     ls_duration := duration * 4 + 6; ls_type := "batch" |}.

(** The labels of the four sub-runs. *)
Definition batch_labels (label : string) : list string :=
  (λ i, label +:+ "_" +:+ Py.str_int i) <$> [1; 2; 3; 4].

(** The fields of the timestamp of sample [i], as [execute_logging] computes
    them before formatting: day offset, hours, minutes, seconds and
    milliseconds. *)
Definition tick_clock (start_seconds : Z) (interval : Q) (i : nat)
  : Z * Z * Z * Z * Z :=
  let current_total_seconds :=
    Qplus (inject_Z start_seconds) (Qmult (inject_Z (Z.of_nat i)) interval) in
  let current_day_offset := Py.floordiv current_total_seconds 86400 in
  let current_seconds_in_day := Py.fmod current_total_seconds 86400 in
  let current_hours := Py.floordiv current_seconds_in_day 3600 in
  let current_minutes := Py.floordiv (Py.fmod current_seconds_in_day 3600) 60 in
  let current_seconds := Py.trunc (Py.fmod current_seconds_in_day 60) in
  let current_milliseconds :=
    Py.trunc (Qmult (Py.fmod current_seconds_in_day 1) (inject_Z 1000)) in
  (current_day_offset, current_hours, current_minutes, current_seconds,
   current_milliseconds).

(** The date of the timestamp, [day_offset] days after the start date. *)
Definition tick_date (year month day day_offset : Z) : Z * Z * Z :=
  if day_offset =? 0 then (year, month, day)
  else let new_day := day + day_offset in
       rollover (Z.to_nat new_day) year month new_day.

(** ** capsense.py: the rest of the reader *)

Module CapsenseMore.

Import Capsense.

(** [create_custom_config(sensor_names, value_names, sensor_address)] *)
Definition create_custom_config (sensor_names value_names : list string)
    (sensor_address : Z) : Config :=
  {| Capsense.sensor_address := sensor_address;
     register := 0;
     num_sensors := length sensor_names;
     values_per_sensor := length value_names;
     value_size := 2;
     Capsense.sensor_names := sensor_names;
     Capsense.value_names := value_names |}.

(** [_check_sensor_availability]: the [while] loop, given the attempts left
    and the index of the next bus scan.  [scan k] is what the [k]-th call of
    [i2c.scan()] answers, [None] when it raises.  The result is the flag
    [is_available] when the loop ends. *)
Fixpoint check_from (addr : Z) (scan : nat → option (list Z))
    (attempts_left : nat) (k : nat) : bool :=
  match attempts_left with
  | O => false
  | S n =>
      match scan k with
      | Some devices =>
          if bool_decide (addr ∈ devices) then true
          else check_from addr scan n (S k)
      | None => check_from addr scan n (S k)
      end
  end.

Definition check_sensor_availability (cfg : Config) (scan : nat → option (list Z))
    (max_attempts : nat) : bool :=
  check_from (Capsense.sensor_address cfg) scan max_attempts 0.

(** [CapsenseReader(config=cfg, i2c_instance=...)]: [__init__] with the
    default of three attempts. *)
Definition new_reader (cfg : Config) (scan : nat → option (list Z)) : CapsenseReader :=
  {| config := cfg; is_available := check_sensor_availability cfg scan 3 |}.

(** [get_raw_data]: the raw count of every sensor; [None] when anything
    inside raises. *)
Definition get_raw_data (r : CapsenseReader) (bus : option (list Z))
  : option (gmap string Z) :=
  data ← read_sensor_data r bus;
  foldM (λ raw_values sensor_name,
           inner ← data !! sensor_name;
           v ← inner !! "RawCount";
           Some (<[sensor_name := v]> raw_values))
        ∅ (take (num_sensors (config r)) (Capsense.sensor_names (config r))).

End CapsenseMore.

(** The row of sentinels written when the capsense read yields nothing. *)
Definition empty_row : string := Py.repeat_str "EMPTY," 11 +:+ "EMPTY".

(** ** main.py: [read_http_request] *)

(** [s[:n]] *)
Fixpoint take_chars (n : nat) (s : string) : string :=
  match n, s with
  | S k, String c t => String c (take_chars k t)
  | _, _ => EmptyString
  end.

(** [s.split(sep)] for a separator of one or more characters: left to
    right, matches do not overlap.  [skip] counts the characters of a match
    still to drop. *)
Fixpoint split_from (sep s : string) (skip : nat) : list string :=
  match s with
  | EmptyString => [EmptyString]
  | String c t =>
      match skip with
      | S k => split_from sep t k
      | O =>
          if String.prefix sep s
          then EmptyString :: split_from sep t (Nat.pred (String.length sep))
          else match split_from sep t O with
               | h :: r => String c h :: r
               | [] => [String c EmptyString]
               end
      end
  end.

Definition split_str (sep s : string) : list string := split_from sep s O.

(** The peer's side of a connection: the segments still to arrive, in
    order; [None] is a read that raises (the 5 s timeout or an I/O error).
    When nothing is left the peer has closed.  [recv n cl] is
    [cl.recv(n).decode('utf-8')] and what remains to arrive; the text is
    taken as already decoded. *)
Definition recv (n : nat) (cl : list (option string))
  : option string * list (option string) :=
  match cl with
  | [] => (Some EmptyString, [])
  | None :: rest => (None, rest)
  | Some data :: rest =>
      if (String.length data <=? n)%nat then (Some data, rest)
      else (Some (take_chars n data), Some (Py.drop_chars n data) :: rest)
  end.

(** The loop over the header lines that looks for the content length;
    [None] when [int] raises. *)
Fixpoint content_length_of (lines : list string) : option Z :=
  match lines with
  | [] => Some 0
  | line :: rest =>
      if String.prefix "content-length:" (Py.lower_str line)
      then v ← Py.split ":" line !! 1%nat; Py.int (Py.strip v)
      else content_length_of rest
  end.

(** The [while len(body) < content_length] loop.  A read that raises leaves
    the loop through the [except] around it, an empty read through [break];
    in both cases the body read so far is kept.  Every other round adds at
    least one character, so [fuel] rounds are enough when [fuel] is the
    number of characters missing at the start. *)
Fixpoint read_more (fuel : nat) (content_length : Z) (body : string)
    (cl : list (option string)) : string * list (option string) :=
  match fuel with
  | O => (body, cl)
  | S k =>
      if Z.of_nat (String.length body) <? content_length then
        let remaining := content_length - Z.of_nat (String.length body) in
        match recv (Z.to_nat (Z.min remaining 1024)) cl with
        | (None, cl') => (body, cl')
        | (Some EmptyString, cl') => (body, cl')
        | (Some additional_data, cl') =>
            read_more k content_length (body +:+ additional_data) cl'
        end
      else (body, cl)
  end.

Definition blank_line : string := CRLF +:+ CRLF.

(** The headers and the body as the first read gives them. *)
Definition split_request (request : string) : string * string :=
  match Py.split_first blank_line request with
  | Some (headers, body) => (headers, body)
  | None => (request, EmptyString)
  end.

(** [read_http_request(cl)]: the pair it returns and what remains to arrive
    on the connection. *)
Definition read_http_request (cl : list (option string))
  : (string * string) * list (option string) :=
  match recv 4096 cl with
  | (None, cl') => ((EmptyString, EmptyString), cl')
  | (Some request, cl') =>
      let '(headers, body) := split_request request in
      if Py.contains "POST" headers && Py.contains "Content-Length:" headers then
        match content_length_of (split_str CRLF headers) with
        | None => ((headers, body), cl')
        | Some content_length =>
            let missing := Z.to_nat (content_length - Z.of_nat (String.length body)) in
            let '(body', cl'') := read_more missing content_length body cl' in
            ((headers, body'), cl'')
        end
      else ((headers, body), cl')
  end.

(** The text still to arrive on a connection, reads that raise left out. *)
Definition arriving (cl : list (option string)) : string :=
  foldr (λ seg acc, default EmptyString seg +:+ acc) EmptyString cl.

(** Every segment arrives and holds at least one character. *)
Definition delivers (cl : list (option string)) : Prop :=
  Forall (λ seg, ∃ c t, seg = Some (String c t)) cl.

(** ** Further readings of the form decoder *)

(** Whether the character [c] occurs in [s]. *)
Fixpoint has_char (c : ascii) (s : string) : bool :=
  match s with
  | EmptyString => false
  | String x t => Ascii.eqb x c || has_char c t
  end.

(** The three replacements [parse_form_data] applies to a value. *)
Definition decode_value (value : string) : string :=
  Py.replace "%2D" "-" (Py.replace "%3A" ":" (Py.replace "%20" " " value)).

(** What [parse_form_data] does with one pair. *)
Definition add_pair (data : gmap string string) (pair : string) : gmap string string :=
  match Py.split_first "=" pair with
  | Some (key, value) => <[key := decode_value value]> data
  | None => data
  end.

(** * Properties *)

(** ** The built-ins on sample inputs *)

Example contains_ex : Py.contains "GET /status" "GET /statusfoo HTTP/1.1" = true.
Proof. reflexivity. Qed.
Example split_ex : Py.split ":" "12:05" = ["12"; "05"].
Proof. reflexivity. Qed.
Example replace_ex : Py.replace "%20" " " "test%20run%2F" = "test run%2F".
Proof. reflexivity. Qed.
Example int_ex : Py.int " -42 " = Some (-42) ∧ Py.int "abc" = None ∧ Py.int "" = None.
Proof. repeat split; reflexivity. Qed.
Example fmt_ex : Py.fmt_0d 2 7 = "07" ∧ Py.fmt_0d 4 2024 = "2024" ∧ Py.fmt_0d 3 (-5) = "-05".
Proof. repeat split; reflexivity. Qed.

Example parse_form_data_ex :
  parse_form_data "duration=30&label=test%20run&path=a%2Fb&flag"
  = <["path" := "a%2Fb"]> (<["label" := "test run"]> (<["duration" := "30"]> ∅)).
Proof. vm_compute. reflexivity. Qed.

Example status_text_ex :
  status_text 1030 (started (env_of healthy_tick) 60 "run1")
  = "ACTIVE: single 'run1' - 30s elapsed, 30s remaining" ∧
  status_text 1030 initial_status = "IDLE".
Proof. split; reflexivity. Qed.

(** ** Strings and traces *)

Lemma string_app_cons (x : ascii) (a b : string) :
  String x a +:+ b = String x (a +:+ b).
Proof. reflexivity. Qed.

Lemma string_app_assoc (a b c : string) : (a +:+ b) +:+ c = a +:+ (b +:+ c).
Proof.
  induction a as [|x a IH]; [reflexivity |].
  by rewrite !string_app_cons, IH.
Qed.

Lemma string_app_nil_r (a : string) : a +:+ "" = a.
Proof.
  induction a as [|x a IH]; [reflexivity |].
  by rewrite string_app_cons, IH.
Qed.

Lemma rows_text_app (l1 l2 : list string) :
  rows_text (l1 ++ l2) = rows_text l1 +:+ rows_text l2.
Proof.
  induction l1 as [|r l1 IH]; [reflexivity |].
  change (r +:+ rows_text (l1 ++ l2) = (r +:+ rows_text l1) +:+ rows_text l2).
  by rewrite IH, string_app_assoc.
Qed.

Lemma appended_rows_app (t1 t2 : list Event) :
  appended_rows (t1 ++ t2) = appended_rows t1 ++ appended_rows t2.
Proof. apply omap_app. Qed.

Lemma seen_statuses_app (t1 t2 : list Event) :
  seen_statuses (t1 ++ t2) = seen_statuses t1 ++ seen_statuses t2.
Proof. apply omap_app. Qed.

Lemma new_events_app (w w' : World) (new : list Event) :
  trace w' = trace w ++ new → new_events w w' = new.
Proof. intros E. unfold new_events. rewrite E. apply drop_app_length. Qed.

Section LoopFacts.

Variable capsense_reader : option Capsense.CapsenseReader.
Variable env : RunEnv.
Variables (label : string) (year month day start_seconds : Z) (interval : Q).

Local Abbreviation tickW :=
  (tick_work capsense_reader env label year month day start_seconds interval).
Local Abbreviation loopW :=
  (sample_loop capsense_reader env label year month day start_seconds interval).
Local Abbreviation tickE :=
  (tick_events capsense_reader env year month day start_seconds interval).

Lemma tick_work_trace i st :
  trace (world (tickW i st)) = trace (world st) ++ tickE i.
Proof.
  unfold tick_work, tick_events.
  destruct (body_raises (tick env i)); [by cbn |].
  destruct (write_ok (tick env i)); cbn; by rewrite <- app_assoc.
Qed.

Lemma tick_work_frame i st :
  logging_status (world (tickW i st)) = logging_status (world st) ∧
  led (world (tickW i st)) = led (world st) ∧
  log_file (world (tickW i st)) = log_file (world st).
Proof.
  unfold tick_work.
  destruct (body_raises (tick env i)); [by cbn |].
  destruct (write_ok (tick env i)); by cbn.
Qed.

Lemma tick_work_file i st content :
  files (world st) !! log_path label = Some content →
  files (world (tickW i st)) !! log_path label =
  Some (content +:+ rows_text (appended_rows (tickE i))).
Proof.
  intros Hfile. unfold tick_work, tick_events.
  destruct (body_raises (tick env i)).
  { cbn. by rewrite string_app_nil_r. }
  destruct (write_ok (tick env i)); cbn.
  - unfold append_file. rewrite lookup_insert_eq, Hfile. cbn.
    by rewrite string_app_nil_r.
  - by rewrite string_app_nil_r.
Qed.

Lemma tick_events_rows i : (length (appended_rows (tickE i)) ≤ 1)%nat.
Proof.
  unfold tick_events.
  destruct (body_raises (tick env i)); [cbn; lia |].
  destruct (write_ok (tick env i)); cbn; lia.
Qed.

Lemma tick_events_quiet s i : Forall (tick_sleep s) (tickE i).
Proof.
  unfold tick_events.
  destruct (body_raises (tick env i)); [by repeat constructor |].
  by repeat constructor.
Qed.

(** The sampling loop only extends the trace, leaves the status, the LED and
    the handle alone, appends its rows to the session's file and nothing
    else, and writes at most one row per index. *)
Lemma sample_loop_facts indices st content :
  files (world st) !! log_path label = Some content →
  let st' := loopW indices st in
  logging_status (world st') = logging_status (world st) ∧
  led (world st') = led (world st) ∧
  log_file (world st') = log_file (world st) ∧
  ∃ new,
    trace (world st') = trace (world st) ++ new ∧
    files (world st') !! log_path label =
      Some (content +:+ rows_text (appended_rows new)) ∧
    (length (appended_rows new) ≤ length indices)%nat ∧
    Forall (tick_sleep (logging_status (world st))) new.
Proof.
  revert st content.
  induction indices as [|i rest IH]; intros st content Hfile; cbn zeta.
  - cbn [sample_loop]. repeat split; try done.
    exists []. rewrite app_nil_r. cbn.
    rewrite string_app_nil_r. repeat split; try done. 
  - cbn [sample_loop].
    destruct (MAX_CONSECUTIVE_ERRORS <=? consecutive_errors st).
    + cbn. repeat split; try done.
      exists [EvPrint MsgStopping]. cbn.
      rewrite string_app_nil_r. repeat split; try done; [lia |].
      by repeat constructor.
    + set (st1 := on_world (sleep (AfterTick i)) (tickW i st)).
      destruct (tick_work_frame i st) as (Hs & Hl & Hh).
      assert (Hf1 : files (world st1) !! log_path label =
                    Some (content +:+ rows_text (appended_rows (tickE i))))
        by (subst st1; cbn; by apply tick_work_file).
      destruct (IH st1 _ Hf1) as (Hs' & Hl' & Hh' & new & Ht & Hf & Hn & Hseen).
      assert (Hst1 : logging_status (world st1) = logging_status (world st))
        by (subst st1; cbn; done).
      repeat split.
      * by rewrite Hs'.
      * rewrite Hl'. subst st1. by cbn.
      * rewrite Hh'. subst st1. by cbn.
      * exists (tickE i ++ EvSleep (AfterTick i) (logging_status (world st)) :: new).
        assert (Hrows : appended_rows
                  (tickE i ++ EvSleep (AfterTick i) (logging_status (world st)) :: new)
                = appended_rows (tickE i) ++ appended_rows new)
          by (by rewrite appended_rows_app).
        repeat split.
        -- rewrite Ht. subst st1. cbn. rewrite tick_work_trace, Hs.
           by rewrite <- !app_assoc.
        -- by rewrite Hf, Hrows, rows_text_app, string_app_assoc.
        -- rewrite Hrows, length_app. cbn [length].
           pose proof (tick_events_rows i). lia.
        -- apply Forall_app. split; [apply tick_events_quiet |].
           constructor; [cbn; eauto |]. by rewrite <- Hst1.
Qed.

End LoopFacts.

Lemma length_range n : length (range n) = Z.to_nat n.
Proof. unfold range. apply length_seq. Qed.

Section SessionFacts.

Variable capsense_reader : option Capsense.CapsenseReader.
Variable env : RunEnv.
Variables (duration : Z) (sample_rate : Py.pyfloat).
Variables (label clock_time start_date : string).

Local Abbreviation run :=
  (execute_logging capsense_reader env duration sample_rate label clock_time start_date).

(** The path through the sampling loop: normal completion or the
    consecutive-error stop. *)
Lemma execute_logging_sampled w p :
  plan duration sample_rate clock_time start_date = Some p →
  create env = Created →
  reopen_ok env = true →
  ∃ new n,
    trace (run w) = trace w ++ new ++ [EvPrint (MsgComplete n (p_total_samples p))] ∧
    files (run w) !! log_path label =
      Some (csv_header capsense_reader +:+ rows_text (appended_rows new)) ∧
    (length (appended_rows new) ≤ Z.to_nat (p_total_samples p))%nat ∧
    Forall (tick_sleep (started env duration label)) new ∧
    logging_status (run w) = set_label "" (set_active false (started env duration label)) ∧
    led (run w) = false ∧
    log_file (run w) = None.
Proof.
  intros Hp Hc Hr. unfold execute_logging. rewrite Hp, Hc, Hr. cbn [write_header].
  match goal with
  | |- context [sample_loop ?a ?b ?c ?d ?e ?f ?g ?h ?l ?s] =>
      set (st0 := s);
      destruct (sample_loop_facts a b c d e f g h l st0 (csv_header capsense_reader))
        as (Hs & Hl & Hh & new & Ht & Hf & Hn & Hq)
  end.
  { subst st0. cbn. by rewrite lookup_insert_eq. }
  exists new. eexists. cbn. rewrite Ht, Hf, Hs. subst st0. cbn.
  rewrite length_range in Hn.
  repeat split; try done. by rewrite <- app_assoc.
Qed.

(** The three paths that leave before sampling. *)
Lemma execute_logging_refused w :
  plan duration sample_rate clock_time start_date = None ∨
  create env ≠ Created ∨ reopen_ok env = false →
  ∃ m,
    trace (run w) = trace w ++ [EvPrint m] ∧
    m ∈ [MsgCritical; MsgFileCreateError; MsgFileOpenError] ∧
    logging_status (run w) = set_active false (started env duration label) ∧
    led (run w) = false ∧
    log_file (run w) = log_file w.
Proof.
  intros H. unfold execute_logging.
  destruct (plan duration sample_rate clock_time start_date) as [p|].
  - destruct (create env) eqn:Hc; cbn [write_header].
    + destruct (reopen_ok env) eqn:Hr.
      * exfalso. destruct H as [?|[?|?]]; done.
      * exists MsgFileOpenError. cbn. repeat split; try done. by repeat constructor.
    + exists MsgFileCreateError. cbn. repeat split; try done. by repeat constructor.
    + exists MsgFileCreateError. cbn. repeat split; try done. by repeat constructor.
  - exists MsgCritical. cbn. repeat split; try done. by repeat constructor.
Qed.

End SessionFacts.

(** ** Sample count *)








(** ** Header write *)

(** C10. Writing the header replaces whatever the file held: after the
    [with open(path, "w")] block the file is the header alone, and at the end
    of a session that got that far the file is the header followed by the
    rows of this session, whatever it held before. *)
Theorem header_write_truncates capsense_reader env duration sample_rate label
    clock_time start_date (w : World) (old : string) p :
  files w !! log_path label = Some old →
  plan duration sample_rate clock_time start_date = Some p →
  create env = Created →
  let header := csv_header capsense_reader in
  let w' := execute_logging capsense_reader env duration sample_rate label
              clock_time start_date w in
  fst (write_header (create env) (log_path label) header (files w)) !! log_path label
    = Some header ∧
  files w' !! log_path label
    = Some (header +:+ rows_text (appended_rows (new_events w w'))).
Proof.
  intros Hold Hp Hc header w'. split.
  { rewrite Hc. cbn. by rewrite lookup_insert_eq. }
  destruct (reopen_ok env) eqn:Hr.
  - destruct (execute_logging_sampled capsense_reader env duration sample_rate
                label clock_time start_date w p Hp Hc Hr)
      as (new & k & Ht & Hf & _).
    fold w' in Ht, Hf.
    rewrite (new_events_app _ _ _ Ht), appended_rows_app.
    change (appended_rows [EvPrint (MsgComplete k (p_total_samples p))])
      with (@nil string).
    by rewrite app_nil_r.
  - subst w'. unfold execute_logging. rewrite Hp, Hc, Hr. cbn.
    unfold new_events. cbn. rewrite drop_app_length. cbn.
    by rewrite lookup_insert_eq, string_app_nil_r.
Qed.

Lemma header_write_truncates_witness :
  let w := with_files {[ log_path "t" := "stale text" ]} initial_world in
  let w' := execute_logging (Some default_reader) (env_of healthy_tick) 10
              (Py.Finite (1 # 10)) "t" "12:00" "2024-01-01" w in
  files w' !! log_path "t"
  = Some (csv_header (Some default_reader)
          +:+ rows_text (appended_rows (new_events w w'))).
Proof.
  intros w w'.
  refine (proj2 (header_write_truncates (Some default_reader) (env_of healthy_tick)
                   10 (Py.Finite (1 # 10)) "t" "12:00" "2024-01-01" w "stale text"
                   _ _ _ _)).
  - reflexivity.
  - reflexivity.
  - reflexivity.
Defined.

(** ** Exit paths *)

(** C8. On every exit path the LED is off, [active] is false and no log file
    is left open.  The label is cleared only on the paths through the
    sampling loop (completion and the consecutive-error stop); an exception
    before the loop and a failure to create or reopen the file leave the
    session's label in [logging_status], as for the request with
    [start_date = "today"]. *)
Theorem exit_paths_keep_label :
  (∀ capsense_reader env duration sample_rate label clock_time start_date w,
     let w' := execute_logging capsense_reader env duration sample_rate label
                 clock_time start_date w in
     led w' = false ∧
     ls_active (logging_status w') = false ∧
     (log_file w = None → log_file w' = None) ∧
     ls_label (logging_status w') =
       if reaches_sampling env duration sample_rate clock_time start_date
       then "" else label) ∧
  ls_label (logging_status
              (execute_logging (Some default_reader) (env_of healthy_tick) 60
                 (Py.Finite (1 # 10)) "run1" "12:00" "today" initial_world)) = "run1" ∧
  ls_label (logging_status
              (execute_logging (Some default_reader) no_directory_env 60
                 (Py.Finite (1 # 10)) "run1" "12:00" "2024-01-01" initial_world)) = "run1".
Proof.
  split; [| split; reflexivity].
  intros capsense_reader env duration sample_rate label clock_time start_date w w'.
  unfold reaches_sampling.
  destruct (plan duration sample_rate clock_time start_date) as [p|] eqn:Hp.
  - destruct (decide (create env = Created)) as [Hc|Hc].
    + destruct (reopen_ok env) eqn:Hr.
      * destruct (execute_logging_sampled capsense_reader env duration sample_rate
                    label clock_time start_date w p Hp Hc Hr)
          as (new & k & _ & _ & _ & _ & Hs & Hl & Hh).
        fold w' in Hs, Hl, Hh. rewrite Hs, Hl, Hh.
        rewrite bool_decide_eq_true_2 by done. done.
      * destruct (execute_logging_refused capsense_reader env duration sample_rate
                    label clock_time start_date w) as (m & _ & _ & Hs & Hl & Hh);
          [by auto |].
        fold w' in Hs, Hl, Hh. rewrite Hs, Hl, Hh, andb_false_r. done.
    + destruct (execute_logging_refused capsense_reader env duration sample_rate
                  label clock_time start_date w) as (m & _ & _ & Hs & Hl & Hh);
        [by auto |].
      fold w' in Hs, Hl, Hh. rewrite Hs, Hl, Hh.
      rewrite bool_decide_eq_false_2 by done. done.
  - destruct (execute_logging_refused capsense_reader env duration sample_rate
                label clock_time start_date w) as (m & _ & _ & Hs & Hl & Hh);
      [by auto |].
    fold w' in Hs, Hl, Hh. rewrite Hs, Hl, Hh. done.
Qed.

(** ** Status invariant *)

Lemma execute_logging_status_steps capsense_reader env duration sample_rate label
    clock_time start_date w :
  rtc status_step (logging_status w)
    (logging_status (execute_logging capsense_reader env duration sample_rate label
                       clock_time start_date w)).
Proof.
  assert (Hstart : status_step (logging_status w) (started env duration label))
    by apply step_single_start.
  destruct (plan duration sample_rate clock_time start_date) as [p|] eqn:Hp.
  - destruct (decide (create env = Created)) as [Hc|Hc].
    + destruct (reopen_ok env) eqn:Hr.
      * destruct (execute_logging_sampled capsense_reader env duration sample_rate
                    label clock_time start_date w p Hp Hc Hr)
          as (new & k & _ & _ & _ & _ & Hs & _).
        rewrite Hs. eapply rtc_l; [exact Hstart |]. apply rtc_once, step_finished.
      * destruct (execute_logging_refused capsense_reader env duration sample_rate
                    label clock_time start_date w) as (m & _ & _ & Hs & _);
          [by auto |].
        rewrite Hs. eapply rtc_l; [exact Hstart |]. apply rtc_once, step_failed.
    + destruct (execute_logging_refused capsense_reader env duration sample_rate
                  label clock_time start_date w) as (m & _ & _ & Hs & _);
        [by auto |].
      rewrite Hs. eapply rtc_l; [exact Hstart |]. apply rtc_once, step_failed.
  - destruct (execute_logging_refused capsense_reader env duration sample_rate
                label clock_time start_date w) as (m & _ & _ & Hs & _);
      [by auto |].
    rewrite Hs. eapply rtc_l; [exact Hstart |]. apply rtc_once, step_failed.
Qed.

(** C3, as the code has it. In every reachable state an active session has
    a kind, ['single'] or ['batch'], and the kind is empty only in the
    initial state: a session that ends clears [active] and leaves ['type']
    as it was. *)
Theorem active_has_type (s : LoggingStatus) :
  reachable s →
  (ls_active s = true → ls_type s = "single" ∨ ls_type s = "batch") ∧
  (ls_type s = "" → s = initial_status).
Proof.
  intros Hr.
  refine (rtc_ind_r
            (λ s, (ls_active s = true → ls_type s = "single" ∨ ls_type s = "batch") ∧
                  (ls_type s = "" → s = initial_status))
            initial_status _ _ s Hr).
  - split; [done |]. done.
  - intros s1 s2 _ Hstep [IHa IHt]. destruct Hstep; cbn.
    + split; [by left | done].
    + split; [by right | done].
    + split; [done |]. intros Ht. rewrite (IHt Ht). done.
    + split; [done |]. intros Ht. rewrite (IHt Ht). done.
Qed.

Lemma active_has_type_witness :
  let s := logging_status (execute_logging (Some default_reader) (env_of healthy_tick)
                             10 (Py.Finite (1 # 10)) "t" "12:00" "2024-01-01"
                             initial_world) in
  (ls_active s = true → ls_type s = "single" ∨ ls_type s = "batch") ∧
  (ls_type s = "" → s = initial_status).
Proof.
  intros s. apply (active_has_type s).
  unfold reachable.
  eapply rtc_l; [apply (step_single_start _ "t" 1000 10) |].
  eapply rtc_l; [apply step_finished |].
  apply rtc_refl.
Defined.

(** C3 as stated fails: after a session the state is idle and ['type'] is
    still ['single']. *)
Lemma idle_with_type_reachable :
  ¬ (∀ s, reachable s → ls_active s = false → ls_type s = "").
Proof.
  intros H.
  specialize (H (logging_status
                   (execute_logging (Some default_reader) (env_of healthy_tick) 10
                      (Py.Finite (1 # 10)) "t" "12:00" "2024-01-01" initial_world))).
  assert (Hreach : rtc status_step (logging_status initial_world)
                     (logging_status
                        (execute_logging (Some default_reader) (env_of healthy_tick) 10
                           (Py.Finite (1 # 10)) "t" "12:00" "2024-01-01" initial_world)))
    by apply execute_logging_status_steps.
  specialize (H Hreach eq_refl). discriminate H.
Qed.

(** ** Batch runs *)

Lemma tick_sleep_idle_gap s e : tick_sleep s e → idle_gap e.
Proof.
  destruct e as [| |p seen|]; try done.
  cbn. intros [[i ->] _]. done.
Qed.

(** A session extends the trace, adds no sleep between sub-runs, and ends
    with [active] false. *)
Lemma execute_logging_trace capsense_reader env duration sample_rate label
    clock_time start_date w :
  let w' := execute_logging capsense_reader env duration sample_rate label
              clock_time start_date w in
  ls_active (logging_status w') = false ∧
  ∃ new, trace w' = trace w ++ new ∧ Forall idle_gap new.
Proof.
  intros w'.
  assert (Hcases :
            (∃ p, plan duration sample_rate clock_time start_date = Some p ∧
                  create env = Created ∧ reopen_ok env = true) ∨
            (plan duration sample_rate clock_time start_date = None ∨
             create env ≠ Created ∨ reopen_ok env = false)).
  { destruct (plan duration sample_rate clock_time start_date) as [p|];
      [| by right; left].
    destruct (decide (create env = Created)); [| by right; right; left].
    destruct (reopen_ok env); [| by right; right; right].
    left. by exists p. }
  destruct Hcases as [(p & Hp & Hc & Hr) | Href].
  - destruct (execute_logging_sampled capsense_reader env duration sample_rate
                label clock_time start_date w p Hp Hc Hr)
      as (new & k & Ht & _ & _ & Hq & Hs & _).
    fold w' in Ht, Hs. split; [by rewrite Hs |].
    eexists. split; [exact Ht |].
    apply Forall_app. split; [| by repeat constructor].
    eapply Forall_impl; [exact Hq |]. apply tick_sleep_idle_gap.
  - destruct (execute_logging_refused capsense_reader env duration sample_rate
                label clock_time start_date w Href) as (m & Ht & _ & Hs & _).
    fold w' in Ht, Hs. split; [by rewrite Hs |].
    eexists. split; [exact Ht |]. by repeat constructor.
Qed.

Lemma batch_loop_trace capsense_reader benv duration sample_rate label clock_time
    start_date indices w :
  ∃ new,
    trace (fst (batch_loop capsense_reader benv duration sample_rate label clock_time
                  start_date indices w)) = trace w ++ new ∧
    Forall idle_gap new.
Proof.
  revert w. induction indices as [|i rest IH]; intros w; cbn [batch_loop].
  { exists []. by rewrite app_nil_r. }
  destruct (batch_clock_time duration clock_time i) as [bct|];
    [| exists []; by rewrite app_nil_r].
  match goal with
  | |- context [execute_logging ?a ?b ?c ?d ?e ?f ?g w] =>
      destruct (execute_logging_trace a b c d e f g w) as (Hidle & new1 & Ht1 & Hq1);
      set (w1 := execute_logging a b c d e f g w) in *
  end.
  destruct (i <? 4).
  - destruct (IH (sleep (BetweenRuns i) w1)) as (new2 & Ht2 & Hq2).
    exists (new1 ++ EvSleep (BetweenRuns i) (logging_status w1) :: new2).
    split.
    + rewrite Ht2. cbn [sleep emit trace]. rewrite Ht1. by rewrite <- !app_assoc.
    + apply Forall_app. split; [done |]. by constructor.
  - destruct (IH w1) as (new2 & Ht2 & Hq2).
    exists (new1 ++ new2). split.
    + rewrite Ht2, Ht1. by rewrite <- app_assoc.
    + by apply Forall_app.
Qed.

Lemma batch_loop_cons capsense_reader benv duration sample_rate label clock_time
    start_date i rest w bct :
  batch_clock_time duration clock_time i = Some bct →
  batch_loop capsense_reader benv duration sample_rate label clock_time start_date
    (i :: rest) w =
  let w1 := execute_logging capsense_reader (run_env benv i) duration sample_rate
              (label +:+ "_" +:+ Py.str_int i) bct start_date w in
  batch_loop capsense_reader benv duration sample_rate label clock_time start_date
    rest (if i <? 4 then sleep (BetweenRuns i) w1 else w1).
Proof. intros H. cbn [batch_loop]. by rewrite H. Qed.

Lemma batch_clock_time_parsed duration clock_time i :
  is_Some (parse_pair ":" clock_time) → is_Some (batch_clock_time duration clock_time i).
Proof.
  intros [[hh mm] H]. unfold batch_clock_time. rewrite H. cbn. by eexists.
Qed.

(** C7, as the code has it. In every batch whose clock time parses, the
    status read at the suspension point between sub-run 1 and sub-run 2 is
    idle, and so it is at every suspension point between two sub-runs: each
    sub-run clears [active] when it ends, before the batch has finished. *)
Theorem batch_idle_between_runs capsense_reader benv duration sample_rate label
    clock_time start_date w :
  is_Some (parse_pair ":" clock_time) →
  let w' := fst (record_batch_data capsense_reader benv duration sample_rate label
                   clock_time start_date w) in
  Forall idle_gap (new_events w w') ∧
  ∃ seen, EvSleep (BetweenRuns 1) seen ∈ new_events w w' ∧ ls_active seen = false.
Proof.
  intros Hclock w'. subst w'. unfold record_batch_data.
  set (w0 := with_status _ w).
  assert (Htr0 : trace w0 = trace w) by done.
  destruct (batch_clock_time_parsed duration clock_time 1 Hclock) as [bct Hbct].
  rewrite (batch_loop_cons _ _ _ _ _ _ _ 1 [2; 3; 4] w0 bct Hbct). cbn zeta.
  match goal with
  | |- context [execute_logging ?a ?b ?c ?d ?e ?f ?g w0] =>
      destruct (execute_logging_trace a b c d e f g w0) as (Hidle & new1 & Ht1 & Hq1);
      set (w1 := execute_logging a b c d e f g w0) in *
  end.
  change (1 <? 4) with true. cbn iota.
  match goal with
  | |- context [batch_loop ?a ?b ?c ?d ?e ?f ?g ?l ?x] =>
      destruct (batch_loop_trace a b c d e f g l x) as (new2 & Ht2 & Hq2);
      destruct (batch_loop a b c d e f g l x) as [w2 o]
  end.
  cbn [fst] in Ht2. cbn [sleep emit trace] in Ht2. rewrite Ht1, Htr0 in Ht2.
  set (gap := EvSleep (BetweenRuns 1) (logging_status w1)) in *.
  assert (Hnew : ∃ tail, new_events w (fst (match o with
                    | Returned =>
                        (emit (EvPrint MsgBatchFinished)
                           (with_status (λ s, set_label "" (set_active false s)) w2),
                         Returned)
                    | Raised => (w2, Raised)
                    end)) = new1 ++ gap :: new2 ++ tail ∧ Forall idle_gap tail).
  { destruct o; cbn [fst].
    - exists [EvPrint MsgBatchFinished]. split; [| by repeat constructor].
      apply new_events_app. cbn [emit with_status trace].
      rewrite Ht2. by rewrite <- !app_assoc.
    - exists []. split; [| done]. apply new_events_app.
      rewrite Ht2, app_nil_r. by rewrite <- !app_assoc. }
  destruct Hnew as (tail & Hnew & Hq3).
  cbn [fst snd] in *. rewrite Hnew. split.
  - apply Forall_app. split; [done |]. constructor; [done |].
    by apply Forall_app.
  - exists (logging_status w1). split; [| done].
    apply elem_of_app. right. apply elem_of_cons. by left.
Qed.

Lemma batch_idle_between_runs_witness :
  let w' := fst (record_batch_data (Some default_reader) healthy_batch 10
                   (Py.Finite (1 # 10)) "b" "12:00" "2024-01-01" initial_world) in
  Forall idle_gap (new_events initial_world w') ∧
  ∃ seen, EvSleep (BetweenRuns 1) seen ∈ new_events initial_world w' ∧
          ls_active seen = false.
Proof.
  apply (batch_idle_between_runs (Some default_reader) healthy_batch 10
           (Py.Finite (1 # 10)) "b" "12:00" "2024-01-01" initial_world).
  eexists. reflexivity.
Defined.

(** ** Consecutive-error counter *)

Section Breaker.

Variable capsense_reader : option Capsense.CapsenseReader.
Variable env : RunEnv.
Variables (label : string) (year month day start_seconds : Z) (interval : Q).

Local Abbreviation tickW :=
  (tick_work capsense_reader env label year month day start_seconds interval).
Local Abbreviation loopW :=
  (sample_loop capsense_reader env label year month day start_seconds interval).
Local Abbreviation tickE :=
  (tick_events capsense_reader env year month day start_seconds interval).

Lemma tick_work_failed i st :
  tick_fails (tick env i) = true →
  consecutive_errors (tickW i st) = consecutive_errors st + 1 ∧
  failed_samples (tickW i st) = failed_samples st + 1 ∧
  successful_samples (tickW i st) = successful_samples st.
Proof.
  unfold tick_fails, tick_work.
  destruct (body_raises (tick env i)); [done |].
  destruct (write_ok (tick env i)); done.
Qed.

Lemma tick_work_succeeded i st :
  tick_fails (tick env i) = false →
  consecutive_errors (tickW i st) = 0 ∧
  failed_samples (tickW i st) = failed_samples st ∧
  successful_samples (tickW i st) = successful_samples st + 1.
Proof.
  unfold tick_fails, tick_work.
  destruct (body_raises (tick env i)); [done |].
  destruct (write_ok (tick env i)); done.
Qed.

Lemma tick_events_failed i :
  tick_fails (tick env i) = true →
  appended_rows (tickE i) = [] ∧
  Forall (λ e, ∀ j, j ≠ i → works_on j e = false) (tickE i).
Proof.
  unfold tick_fails, tick_events.
  assert (Hne : ∀ j, j ≠ i → (i =? j)%nat = false).
  { intros j Hj. apply Nat.eqb_neq. congruence. }
  destruct (body_raises (tick env i)).
  { intros _. split; [done |]. by repeat constructor. }
  destruct (write_ok (tick env i)); [done |].
  intros _. split; [done |]. by repeat constructor.
Qed.

(** A run of failing ticks below the threshold: each is worked on, none
    writes a row, and the counter grows by their number. *)
Lemma sample_loop_failing pre rest st :
  Forall (λ i, tick_fails (tick env i) = true) pre →
  consecutive_errors st + Z.of_nat (length pre) <= MAX_CONSECUTIVE_ERRORS →
  ∃ st',
    loopW (pre ++ rest) st = loopW rest st' ∧
    consecutive_errors st' = consecutive_errors st + Z.of_nat (length pre) ∧
    successful_samples st' = successful_samples st ∧
    logging_status (world st') = logging_status (world st) ∧
    led (world st') = led (world st) ∧
    ∃ new,
      trace (world st') = trace (world st) ++ new ∧
      appended_rows new = [] ∧
      Forall (λ e, ∀ j, j ∉ pre → works_on j e = false) new.
Proof.
  revert st. induction pre as [|i pre IH]; intros st Hall Hc.
  - exists st. cbn [app length] in *. repeat split; try lia.
    exists []. by rewrite app_nil_r.
  - apply Forall_cons in Hall as [Hi Hall].
    cbn [app sample_loop length] in *.
    destruct (MAX_CONSECUTIVE_ERRORS <=? consecutive_errors st) eqn:E.
    { apply Z.leb_le in E. lia. }
    set (st1 := on_world (sleep (AfterTick i)) (tickW i st)).
    destruct (tick_work_failed i st Hi) as (Hce & _ & Hss).
    destruct (tick_work_frame capsense_reader env label year month day start_seconds
                interval i st) as (Hs & Hl & _).
    destruct (tick_events_failed i Hi) as (Hrows & Hwork).
    destruct (IH st1 Hall) as (st' & Hloop & Hce' & Hss' & Hs' & Hl' & new & Ht & Hr & Hw).
    { subst st1. cbn [on_world consecutive_errors]. lia. }
    exists st'. split; [exact Hloop |].
    subst st1. cbn [on_world consecutive_errors successful_samples world sleep emit
                      logging_status led trace] in *.
    repeat split; try congruence; try lia.
    exists (tickE i ++ EvSleep (AfterTick i) (logging_status (world st)) :: new).
    repeat split.
    + rewrite Ht, tick_work_trace, Hs. by rewrite <- !app_assoc.
    + rewrite appended_rows_app, Hrows. exact Hr.
    + apply Forall_app. split.
      * eapply Forall_impl; [exact Hwork |]. cbn beta. intros e He j Hj.
        apply He. intros ->. apply Hj. by left.
      * constructor; [done |].
        eapply Forall_impl; [exact Hw |]. cbn beta. intros e He j Hj.
        apply He. intros Hin. apply Hj. by right.
Qed.

End Breaker.

Lemma range_split (n : Z) :
  5 < n → ∃ rest, range n = [0; 1; 2; 3; 4]%nat ++ 5%nat :: rest.
Proof.
  intros Hn. unfold range.
  replace (Z.to_nat n) with (5 + S (Z.to_nat n - 6))%nat by lia.
  rewrite seq_app. cbn [seq Nat.add]. by eexists.
Qed.

(** C4, as the code has it. The counter grows by one on a tick whose body
    or write raises and returns to zero on any other tick, whatever the
    sensors answered; and in a session of more than five samples whose
    first five ticks fail, no work is done for a tick of index five or more,
    no row is written, the stop is printed, and the session ends as every
    session does, idle with the LED off. *)
Theorem circuit_breaker capsense_reader env duration sample_rate label clock_time
    start_date w p :
  plan duration sample_rate clock_time start_date = Some p →
  5 < p_total_samples p →
  create env = Created →
  reopen_ok env = true →
  (∀ i, (i < 5)%nat → tick_fails (tick env i) = true) →
  let w' := execute_logging capsense_reader env duration sample_rate label
              clock_time start_date w in
  (∀ i st,
     consecutive_errors
       (tick_work capsense_reader env label (p_year p) (p_month p) (p_day p)
          (p_start_seconds p) (p_interval p) i st)
     = if tick_fails (tick env i) then consecutive_errors st + 1 else 0) ∧
  Forall (λ e, ∀ j, (5 ≤ j)%nat → works_on j e = false) (new_events w w') ∧
  stopped (new_events w w') = true ∧
  appended_rows (new_events w w') = [] ∧
  ls_active (logging_status w') = false ∧
  led w' = false.
Proof.
  intros Hp Htotal Hc Hr Hfail w'. split.
  { intros i st. destruct (tick_fails (tick env i)) eqn:E.
    - by apply tick_work_failed.
    - by apply tick_work_succeeded. }
  subst w'. unfold execute_logging. rewrite Hp, Hc, Hr. cbn [write_header].
  destruct (range_split _ Htotal) as [rest ->].
  match goal with
  | |- context [sample_loop ?a ?b ?c ?d ?e ?f ?g ?h (?pre ++ ?l) ?s] =>
      destruct (sample_loop_failing a b c d e f g h pre l s)
        as (st' & -> & Hce & Hss & Hs & Hl & new & Ht & Hrows & Hwork)
  end.
  { repeat constructor; apply Hfail; lia. }
  { cbn. unfold MAX_CONSECUTIVE_ERRORS. lia. }
  cbn [sample_loop].
  replace (MAX_CONSECUTIVE_ERRORS <=? consecutive_errors st') with true
    by (symmetry; apply Z.leb_le; rewrite Hce; cbn; unfold MAX_CONSECUTIVE_ERRORS; lia).
  set (wf := with_led false _).
  assert (Htrace : trace wf = trace w ++ new ++
            [EvPrint MsgStopping;
             EvPrint (MsgComplete (successful_samples st') (p_total_samples p))]).
  { subst wf. cbn. rewrite Ht. cbn. by rewrite <- !app_assoc. }
  rewrite (new_events_app _ _ _ Htrace).
  assert (Hidle : ls_active (logging_status wf) = false ∧ led wf = false) by done.
  destruct Hidle as [Hidle Hled].
  repeat split; try done.
  - apply Forall_app. split.
    + eapply Forall_impl; [exact Hwork |]. cbn beta. intros e He j Hj.
      apply He. rewrite !elem_of_cons, elem_of_nil. lia.
    + by repeat constructor.
  - unfold stopped. rewrite existsb_app. apply orb_true_r.
  - rewrite appended_rows_app, Hrows. done.
Qed.

Lemma circuit_breaker_witness :
  let w' := execute_logging (Some default_reader) (env_of write_fails_tick) 60
              (Py.Finite (1 # 10)) "t" "12:00" "2024-01-01" initial_world in
  stopped (new_events initial_world w') = true ∧
  appended_rows (new_events initial_world w') = [].
Proof.
  intros w'.
  destruct (circuit_breaker (Some default_reader) (env_of write_fails_tick) 60
              (Py.Finite (1 # 10)) "t" "12:00" "2024-01-01" initial_world
              {| p_year := 2024; p_month := 1; p_day := 1; p_start_seconds := 43200;
                 p_interval := / (1 # 10); p_total_samples := 6 |})
    as (_ & _ & Hstop & Hrows & _).
  - reflexivity.
  - reflexivity.
  - reflexivity.
  - reflexivity.
  - intros i _. reflexivity.
  - split; [exact Hstop | exact Hrows].
Defined.

(** C4 as stated fails for sensor failures: a tick in which both sensor
    drivers raise writes its row of sentinels and counts as a success, so
    six such ticks in a row write six rows and stop nothing. *)
Lemma sensor_failures_not_counted :
  ¬ (∀ capsense_reader env label year month day start_seconds interval i st,
       sensor_read_fails (tick env i) = true ∨ write_ok (tick env i) = false →
       consecutive_errors
         (tick_work capsense_reader env label year month day start_seconds interval i st)
       = consecutive_errors st + 1) ∧
  let w' := execute_logging (Some default_reader) (env_of sensors_down_tick) 60
              (Py.Finite (1 # 10)) "t" "12:00" "2024-01-01" initial_world in
  length (appended_rows (new_events initial_world w')) = 6%nat ∧
  stopped (new_events initial_world w') = false.
Proof.
  split.
  - intros H.
    specialize (H (Some default_reader) (env_of sensors_down_tick) "t" 2024 1 1 43200
                  (/ (1 # 10))%Q 0%nat (loop_start initial_world) (or_introl eq_refl)).
    discriminate H.
  - cbn zeta. split; vm_compute; reflexivity.
Qed.

(** ** Request handling *)



Lemma get_present (data : gmap string string) key dflt v :
  data !! key = Some v → get data key dflt = v.
Proof. intros H. unfold get. by rewrite H. Qed.




(** C9, as the code has it. A request whose header block holds none of the
    texts the router looks for is answered 404 and the connection closed;
    the request line [GET /foo HTTP/1.1] alone is such a request. *)
Theorem unmatched_request_not_found html t st headers body :
  Py.contains "GET / " headers = false →
  Py.contains "GET / HTTP/1.1" headers = false →
  Py.contains "POST" headers = false ∨
    (Py.contains "/start_logging" headers = false ∧
     Py.contains "/start_batch" headers = false) →
  Py.contains "GET /status" headers = false →
  handle_request html t st headers body
  = {| sent := Some not_found_response; spawned := None; closed := true |}.
Proof.
  intros H1 H2 H3 H4. unfold handle_request, route.
  rewrite H1, H2, H4. cbn [orb].
  destruct H3 as [-> | [-> ->]]; [done |].
  by rewrite !andb_false_r.
Qed.

Lemma unmatched_request_not_found_witness :
  handle_request "" 0 initial_status
    ("GET /foo HTTP/1.1" +:+ CRLF +:+ "Host: 192.168.4.1") ""
  = {| sent := Some not_found_response; spawned := None; closed := true |}.
Proof.
  apply unmatched_request_not_found.
  - reflexivity.
  - reflexivity.
  - left. reflexivity.
  - reflexivity.
Defined.

(** C9 as stated fails: the router looks for its texts anywhere in the
    header block, so a request whose method and path are none of the four
    routes can still be taken for one of them. *)
Lemma routed_by_other_header :
  ¬ (∀ html t st headers body method path,
       method_and_path headers = Some (method, path) →
       (method, path) ∉ table_routes →
       sent (handle_request html t st headers body) = Some not_found_response).
Proof.
  intros H.
  specialize (H "" 0 initial_status
                ("POST /foo HTTP/1.1" +:+ CRLF +:+
                 "Referer: http://192.168.4.1/start_logging") ""
                "POST" "/foo" eq_refl).
  assert (Hroutes : ("POST", "/foo") ∉ table_routes).
  { unfold table_routes. rewrite !elem_of_cons, elem_of_nil.
    intros [E | [E | [E | [E | []]]]]; discriminate E. }
  specialize (H Hroutes). vm_compute in H. discriminate H.
Qed.

(** ** Columns *)

Lemma field_count_commas s : field_count s = S (commas s).
Proof.
  unfold field_count. induction s as [|c t IH]; [done |].
  cbn [Py.split commas]. destruct (Ascii.eqb c ","); cbn [length].
  - by rewrite IH.
  - destruct (Py.split "," t) as [|h r]; [done |]. exact IH.
Qed.

Lemma commas_app a b : commas (a +:+ b) = (commas a + commas b)%nat.
Proof.
  induction a as [|c a IH]; [done |].
  rewrite string_app_cons. cbn [commas]. destruct (Ascii.eqb c ","); lia.
Qed.

Lemma commas_repeat_zero n : commas (Py.repeat_str "0" n) = 0%nat.
Proof.
  induction n as [|n IH]; [done |].
  cbn [Py.repeat_str]. rewrite commas_app, IH. done.
Qed.

Lemma commas_uint_empty u : commas (NilEmpty.string_of_uint u) = 0%nat.
Proof. induction u; cbn [NilEmpty.string_of_uint commas]; done. Qed.

Lemma commas_uint u : commas (NilZero.string_of_uint u) = 0%nat.
Proof. destruct u; try done; apply (commas_uint_empty (_ u)). Qed.

Lemma commas_str_int n : commas (Py.str_int n) = 0%nat.
Proof.
  unfold Py.str_int, NilZero.string_of_int.
  destruct (Z.to_int n) as [u|u]; [apply commas_uint |].
  cbn [commas]. apply commas_uint.
Qed.

Lemma commas_fmt_0d w n : commas (Py.fmt_0d w n) = 0%nat.
Proof.
  unfold Py.fmt_0d, Py.zfill.
  destruct (n <? 0); rewrite !commas_app, ?commas_repeat_zero, commas_uint; done.
Qed.

Lemma commas_datetime_str year month day start_seconds interval i :
  commas (datetime_str year month day start_seconds interval i) = 0%nat.
Proof.
  unfold datetime_str.
  match goal with
  | |- context [if ?c then (year, month, day) else ?r] =>
      destruct (if c then (year, month, day) else r) as [[y m] d]
  end.
  rewrite !commas_app, !commas_fmt_0d. done.
Qed.

Lemma commas_join_plain (l : list string) :
  Forall (λ v, commas v = 0%nat) l → commas (Py.join "," l) = Nat.pred (length l).
Proof.
  induction 1 as [|v l Hv Hl IH]; [done |].
  destruct l as [|v' l]; [done |].
  change (Py.join "," (v :: v' :: l)) with (v +:+ "," +:+ Py.join "," (v' :: l)).
  rewrite !commas_app, Hv, IH. done.
Qed.

Lemma get_csv_string_commas r bus csv :
  Capsense.config r = Capsense.DEFAULT_CONFIG →
  Capsense.get_csv_string r bus = Some csv → commas csv = 8%nat.
Proof.
  intros Hcfg. unfold Capsense.get_csv_string.
  destruct (Capsense.read_sensor_data r bus) as [data|]; [|done]. cbn [mbind option_bind].
  destruct (mapM _ (Capsense.columns r)) as [values|] eqn:Hm; [|done].
  cbn [mbind option_bind]. intros [= <-].
  assert (Hlen : length values = 9%nat).
  { apply length_mapM in Hm. rewrite <- Hm. unfold Capsense.columns. by rewrite Hcfg. }
  rewrite commas_join_plain; [by rewrite Hlen |].
  apply mapM_Some in Hm. clear Hlen.
  induction Hm as [|[sn vn] v cols vs Hv _ IH]; constructor; [| exact IH].
  cbn beta iota in Hv.
  destruct (data !! sn) as [inner|]; [|done]. cbn in Hv.
  destruct (inner !! vn) as [x|]; [|done]. cbn in Hv.
  injection Hv as <-. apply commas_str_int.
Qed.

Lemma log_entry_commas capsense_reader year month day start_seconds interval i te :
  bme_plain te →
  commas (log_entry capsense_reader year month day start_seconds interval i te)
  = (4 + commas (get_capsense_data capsense_reader te))%nat.
Proof.
  unfold bme_plain, log_entry, getBMEdata.
  destruct (bme te) as [[[t h] p]|].
  - intros (Ht & Hh & Hp).
    rewrite !commas_app, commas_datetime_str, Ht, Hh, Hp. cbn [commas Ascii.eqb]. cbn. lia.
  - intros _. rewrite !commas_app, commas_datetime_str. cbn. lia.
Qed.

(** C2, on the code. With no capsense reader the header has 5 columns and
    every row 16 fields.  With the reader of the default configuration the
    header has 13 columns; a row has 13 fields when the capsense read
    succeeds and 16 when it fails and the sentinels are written. *)
Theorem header_and_row_fields year month day start_seconds interval i te r :
  bme_plain te →
  Capsense.config r = Capsense.DEFAULT_CONFIG →
  (field_count (csv_header None) = 5%nat ∧
   field_count (log_entry None year month day start_seconds interval i te) = 16%nat) ∧
  (field_count (csv_header (Some r)) = 13%nat ∧
   field_count (log_entry (Some r) year month day start_seconds interval i te)
   = match Capsense.get_csv_string r (i2c te) with
     | Some _ => 13%nat
     | None => 16%nat
     end).
Proof.
  intros Hbme Hcfg. rewrite !field_count_commas, !log_entry_commas by done.
  split; [split; reflexivity |]. split.
  - unfold csv_header, Capsense.get_csv_header, Capsense.columns. rewrite Hcfg.
    reflexivity.
  - unfold get_capsense_data.
    destruct (Capsense.get_csv_string r (i2c te)) as [csv|] eqn:E; [| reflexivity].
    pose proof (get_csv_string_commas r (i2c te) csv Hcfg E) as Hc.
    destruct csv as [|c csv]; [discriminate Hc |]. by rewrite Hc.
Qed.

Lemma header_and_row_fields_witness :
  field_count (csv_header None) = 5%nat ∧
  field_count (log_entry None 2024 1 1 43200 10 0 sensors_down_tick) = 16%nat ∧
  field_count (csv_header (Some default_reader)) = 13%nat ∧
  field_count (log_entry (Some default_reader) 2024 1 1 43200 10 0 sensors_down_tick)
  = 16%nat.
Proof.
  destruct (header_and_row_fields 2024 1 1 43200 10 0 sensors_down_tick default_reader)
    as [[H1 H2] [H3 H4]].
  - exact I.
  - reflexivity.
  - exact (conj H1 (conj H2 (conj H3 H4))).
Defined.

(** C1, on the code. The clock time handed to a sub-run does not depend on
    its index or on the duration: the offset is computed and not added.
    For [duration = 10] sub-run 2 starts its timestamps at 12:00:00, where
    the offset of 12 seconds gives 12:00:12; for [duration = 58] it is handed
    12:00, where the offset of one minute gives 12:01. *)
Theorem batch_offset_not_applied :
  (∀ duration clock_time i,
     batch_clock_time duration clock_time i = batch_clock_time 0 clock_time 1) ∧
  sub_run_start_seconds 10 "12:00" 2 = Some 43200 ∧
  spec_start_seconds 10 "12:00" 2 = Some 43212 ∧
  batch_clock_time 58 "12:00" 2 = Some "12:00" ∧
  spec_start_seconds 58 "12:00" 2 = Some 43260 ∧
  files (fst (record_batch_data (Some default_reader) healthy_batch 10
                (Py.Finite (1 # 10)) "b" "12:00" "2024-01-01" initial_world))
    !! log_path "b_2"
  = Some (csv_header (Some default_reader) +:+
          "2024-01-01 12:00:00.000,23.45C,40.00%,1013.25hPa,1,4,7,2,5,8,3,6,265"
          +:+ newline).
Proof.
  split; [reflexivity |].
  repeat split; vm_compute; reflexivity.
Qed.

(** ** Runs stay within the reachable states *)

Lemma batch_loop_status_steps capsense_reader benv duration sample_rate label
    clock_time start_date indices w :
  rtc status_step (logging_status w)
    (logging_status (fst (batch_loop capsense_reader benv duration sample_rate label
                            clock_time start_date indices w))).
Proof.
  revert w. induction indices as [|i rest IH]; intros w; cbn [batch_loop].
  { apply rtc_refl. }
  destruct (batch_clock_time duration clock_time i) as [bct|]; [| apply rtc_refl].
  match goal with
  | |- context [execute_logging ?a ?b ?c ?d ?e ?f ?g w] =>
      pose proof (execute_logging_status_steps a b c d e f g w) as Hrun;
      set (w1 := execute_logging a b c d e f g w) in *
  end.
  etrans; [exact Hrun |].
  destruct (i <? 4); [| apply IH].
  change (logging_status w1) with (logging_status (sleep (BetweenRuns i) w1)).
  apply IH.
Qed.

Lemma record_batch_data_status_steps capsense_reader benv duration sample_rate label
    clock_time start_date w :
  rtc status_step (logging_status w)
    (logging_status (fst (record_batch_data capsense_reader benv duration sample_rate
                            label clock_time start_date w))).
Proof.
  unfold record_batch_data.
  set (w0 := with_status _ w).
  assert (H0 : status_step (logging_status w) (logging_status w0))
    by apply step_batch_start.
  pose proof (batch_loop_status_steps capsense_reader benv duration sample_rate label
                clock_time start_date [1; 2; 3; 4] w0) as Hloop.
  destruct (batch_loop _ _ _ _ _ _ _ _ w0) as [w1 [|]]; cbn [fst] in *.
  - eapply rtc_l; [exact H0 |]. eapply rtc_r; [exact Hloop |]. apply step_finished.
  - eapply rtc_l; [exact H0 |]. exact Hloop.
Qed.

(** The statuses a session shows at its suspension points are reachable
    whenever the status it started from is. *)
Lemma execute_logging_seen_reachable capsense_reader env duration sample_rate label
    clock_time start_date w :
  reachable (logging_status w) →
  Forall reachable
    (seen_statuses (new_events w
       (execute_logging capsense_reader env duration sample_rate label clock_time
          start_date w))).
Proof.
  intros Hw.
  assert (Hstarted : reachable (started env duration label)).
  { eapply rtc_r; [exact Hw |]. apply step_single_start. }
  destruct (plan duration sample_rate clock_time start_date) as [p|] eqn:Hp.
  - destruct (decide (create env = Created)) as [Hc|Hc].
    + destruct (reopen_ok env) eqn:Hr.
      * destruct (execute_logging_sampled capsense_reader env duration sample_rate
                    label clock_time start_date w p Hp Hc Hr)
          as (new & k & Ht & _ & _ & Hq & _).
        rewrite (new_events_app _ _ _ Ht), seen_statuses_app.
        apply Forall_app. split; [| by constructor].
        clear Ht. induction Hq as [|e new He _ IH]; [by constructor |].
        destruct e as [| |sp seen|]; cbn; try exact IH.
        destruct He as [_ ->]. by constructor.
      * destruct (execute_logging_refused capsense_reader env duration sample_rate
                    label clock_time start_date w) as (m & Ht & _); [by auto |].
        rewrite (new_events_app _ _ _ Ht). by constructor.
    + destruct (execute_logging_refused capsense_reader env duration sample_rate
                  label clock_time start_date w) as (m & Ht & _); [by auto |].
      rewrite (new_events_app _ _ _ Ht). by constructor.
  - destruct (execute_logging_refused capsense_reader env duration sample_rate
                label clock_time start_date w) as (m & Ht & _); [by auto |].
    rewrite (new_events_app _ _ _ Ht). by constructor.
Qed.

(** ** Day rollover *)

(** The fuel [datetime_str] gives [rollover] is enough: the result is a day
    on which the [while] loop of the source stops. *)
Lemma rollover_stops fuel year month day :
  day <= 30 * (Z.of_nat fuel + 1) →
  (rollover fuel year month day).2 <= 30.
Proof.
  revert year month day. induction fuel as [|k IH]; intros year month day Hd.
  - cbn. lia.
  - cbn [rollover]. destruct (30 <? day) eqn:E.
    + destruct (12 <? month + 1); apply IH; lia.
    + apply Z.ltb_ge in E. cbn. lia.
Qed.

Lemma rollover_fuel_enough year month day :
  (rollover (Z.to_nat day) year month day).2 <= 30.
Proof. apply rollover_stops. lia. Qed.

(** * Further properties of the code *)

(** ** Sessions: rows, counts and the files they touch *)

Section LoopAccounts.

Variable capsense_reader : option Capsense.CapsenseReader.
Variable env : RunEnv.
Variables (label : string) (year month day start_seconds : Z) (interval : Q).

Local Abbreviation tickW :=
  (tick_work capsense_reader env label year month day start_seconds interval).
Local Abbreviation loopW :=
  (sample_loop capsense_reader env label year month day start_seconds interval).
Local Abbreviation tickE :=
  (tick_events capsense_reader env year month day start_seconds interval).

Lemma tick_work_counts i st :
  successful_samples (tickW i st)
  = successful_samples st + Z.of_nat (length (appended_rows (tickE i))) ∧
  ∀ q, q ≠ log_path label →
       files (world (tickW i st)) !! q = files (world st) !! q.
Proof.
  unfold tick_work, tick_events.
  destruct (body_raises (tick env i)); [cbn; split; [lia | done] |].
  destruct (write_ok (tick env i)); cbn.
  - split; [lia |]. intros q Hq. unfold append_file. by rewrite lookup_insert_ne.
  - split; [lia | done].
Qed.

(** The loop counts one success per row it appends and writes to no file
    but the session's own. *)
Lemma sample_loop_counts indices st :
  ∃ new,
    trace (world (loopW indices st)) = trace (world st) ++ new ∧
    successful_samples (loopW indices st)
    = successful_samples st + Z.of_nat (length (appended_rows new)) ∧
    ∀ q, q ≠ log_path label →
         files (world (loopW indices st)) !! q = files (world st) !! q.
Proof.
  revert st. induction indices as [|i rest IH]; intros st; cbn [sample_loop].
  { exists []. rewrite app_nil_r. cbn. split; [done |]. split; [lia | done]. }
  destruct (MAX_CONSECUTIVE_ERRORS <=? consecutive_errors st).
  { exists [EvPrint MsgStopping]. cbn. split; [done |]. split; [lia | done]. }
  destruct (tick_work_counts i st) as (Hn & Hf).
  destruct (IH (on_world (sleep (AfterTick i)) (tickW i st))) as (new & Ht & Hs & Hq).
  exists (tickE i ++ EvSleep (AfterTick i) (logging_status (world (tickW i st))) :: new).
  split; [| split].
  - rewrite Ht. cbn. rewrite tick_work_trace. by rewrite <- !app_assoc.
  - rewrite Hs. cbn [on_world successful_samples]. rewrite Hn.
    rewrite appended_rows_app, length_app.
    change (appended_rows (EvSleep (AfterTick i) (logging_status (world (tickW i st)))
                             :: new))
      with (appended_rows new).
    lia.
  - intros q Hne. rewrite (Hq q Hne). cbn. by apply Hf.
Qed.



End LoopAccounts.

Lemma range_nonneg_length (n : Z) : Z.of_nat (length (range n)) = Z.max 0 n.
Proof. rewrite length_range. lia. Qed.

(** The loop of a session that got to sampling, with what it added. *)
Lemma execute_logging_loop capsense_reader env duration sample_rate label clock_time
    start_date w p :
  plan duration sample_rate clock_time start_date = Some p →
  create env = Created →
  reopen_ok env = true →
  ∃ st0 : Loop,
    trace (world st0) = trace w ∧
    successful_samples st0 = 0 ∧
    consecutive_errors st0 = 0 ∧
    files (world st0) = <[log_path label := csv_header capsense_reader]> (files w) ∧
    let st := sample_loop capsense_reader env label (p_year p) (p_month p) (p_day p)
                (p_start_seconds p) (p_interval p) (range (p_total_samples p)) st0 in
    let w' := execute_logging capsense_reader env duration sample_rate label
                clock_time start_date w in
    trace w' = trace (world st)
               ++ [EvPrint (MsgComplete (successful_samples st) (p_total_samples p))] ∧
    files w' = files (world st).
Proof.
  intros Hp Hc Hr. unfold execute_logging. rewrite Hp, Hc, Hr. cbn [write_header].
  match goal with
  | |- context [sample_loop _ _ _ _ _ _ _ _ _ ?s] => exists s
  end.
  by cbn.
Qed.





Lemma execute_logging_other_files capsense_reader env duration sample_rate label
    clock_time start_date w (q : string) :
  q ≠ log_path label →
  files (execute_logging capsense_reader env duration sample_rate label clock_time
           start_date w) !! q
  = files w !! q.
Proof.
  intros Hq.
  destruct (plan duration sample_rate clock_time start_date) as [p|] eqn:Hp.
  - destruct (decide (create env = Created)) as [Hc|Hc].
    + destruct (reopen_ok env) eqn:Hr.
      * destruct (execute_logging_loop capsense_reader env duration sample_rate label
                    clock_time start_date w p Hp Hc Hr)
          as (st0 & _ & _ & _ & Hf0 & _ & Hf).
        cbn zeta in Hf. rewrite Hf.
        destruct (sample_loop_counts capsense_reader env label (p_year p) (p_month p)
                    (p_day p) (p_start_seconds p) (p_interval p)
                    (range (p_total_samples p)) st0) as (new & _ & _ & Hframe).
        rewrite (Hframe q Hq), Hf0. by apply lookup_insert_ne.
      * unfold execute_logging. rewrite Hp, Hc, Hr. cbn. by apply lookup_insert_ne.
    + unfold execute_logging. rewrite Hp.
      destruct (create env); [done | cbn; done | cbn; by apply lookup_insert_ne].
  - unfold execute_logging. rewrite Hp. done.
Qed.

(** X3. A session writes to no file but [logs/<label>.csv], on any of its
    paths. *)
Theorem session_touches_one_file capsense_reader env duration sample_rate label
    clock_time start_date w (q : string) :
  q ≠ log_path label →
  files (execute_logging capsense_reader env duration sample_rate label clock_time
           start_date w) !! q
  = files w !! q.
Proof. apply execute_logging_other_files. Qed.

Lemma session_touches_one_file_witness :
  let w := with_files {[ "logs/other.csv" := "kept" ]} initial_world in
  files (execute_logging (Some default_reader) (env_of healthy_tick) 30
           (Py.Finite (1 # 10)) "t" "12:00" "2024-01-01" w) !! "logs/other.csv"
  = Some "kept".
Proof.
  intros w.
  rewrite (session_touches_one_file (Some default_reader) (env_of healthy_tick) 30
             (Py.Finite (1 # 10)) "t" "12:00" "2024-01-01" w "logs/other.csv").
  - reflexivity.
  - discriminate.
Defined.

(** ** Batches *)

Lemma gaps_app (t1 t2 : list Event) : gaps (t1 ++ t2) = gaps t1 ++ gaps t2.
Proof. apply omap_app. Qed.

Lemma tick_sleeps_quiet s new :
  Forall (tick_sleep s) new →
  gaps new = [] ∧ Forall (λ seen, seen = s) (seen_statuses new).
Proof.
  induction 1 as [|e new He _ [IHg IHs]]; [done |].
  destruct e as [| |sp seen|]; try done.
  destruct He as [[i ->] ->]. split; [exact IHg |]. by constructor.
Qed.

(** What a session shows of itself, on any path: no sleep between
    sub-runs, the kind ['single'] at every suspension point and at the end,
    and [active] false at the end. *)
Lemma execute_logging_shows capsense_reader env duration sample_rate label
    clock_time start_date w :
  let w' := execute_logging capsense_reader env duration sample_rate label
              clock_time start_date w in
  ls_active (logging_status w') = false ∧
  ls_type (logging_status w') = "single" ∧
  ∃ new, trace w' = trace w ++ new ∧ gaps new = [] ∧
         Forall (λ seen, ls_type seen = "single") (seen_statuses new).
Proof.
  intros w'.
  destruct (plan duration sample_rate clock_time start_date) as [p|] eqn:Hp;
    [destruct (decide (create env = Created)) as [Hc|Hc];
     [destruct (reopen_ok env) eqn:Hr |] |].
  1: { destruct (execute_logging_sampled capsense_reader env duration sample_rate
                   label clock_time start_date w p Hp Hc Hr)
         as (new & k & Ht & _ & _ & Hq & Hs & _).
       fold w' in Ht, Hs. rewrite Hs. split; [done |]. split; [done |].
       destruct (tick_sleeps_quiet _ _ Hq) as [Hg Hseen].
       eexists. split; [exact Ht |]. split.
       - rewrite gaps_app, Hg. done.
       - rewrite seen_statuses_app. apply Forall_app. split; [| by constructor].
         eapply Forall_impl; [exact Hseen |]. by intros ? ->. }
  all: destruct (execute_logging_refused capsense_reader env duration sample_rate
                   label clock_time start_date w) as (m & Ht & _ & Hs & _);
    [by auto |];
    fold w' in Ht, Hs; rewrite Hs; split; [done |]; split; [done |];
    eexists; split; [exact Ht |]; split; [done | by constructor].
Qed.

Section BatchFacts.

Variable capsense_reader : option Capsense.CapsenseReader.
Variable benv : BatchEnv.
Variables (duration : Z) (sample_rate : Py.pyfloat).
Variables (label clock_time start_date : string).

Local Abbreviation loopB :=
  (batch_loop capsense_reader benv duration sample_rate label clock_time start_date).

(** The loop over sub-runs when the clock time parses: it returns; the
    gaps are those of the indices below 4; every status shown has kind
    ['single']; only the sub-runs' files are written. *)
Lemma batch_loop_parsed indices w :
  is_Some (parse_pair ":" clock_time) →
  indices ≠ [] →
  (loopB indices w).2 = Returned ∧
  ls_active (logging_status (loopB indices w).1) = false ∧
  ls_type (logging_status (loopB indices w).1) = "single" ∧
  (∃ new, trace (loopB indices w).1 = trace w ++ new ∧
          gaps new = filter (λ i, i < 4) indices ∧
          Forall (λ seen, ls_type seen = "single") (seen_statuses new)) ∧
  ∀ q, q ∉ ((λ i, log_path (label +:+ "_" +:+ Py.str_int i)) <$> indices) →
       files (loopB indices w).1 !! q = files w !! q.
Proof.
  intros Hclock. revert w.
  induction indices as [|i rest IH]; intros w Hne; [done |].
  destruct (batch_clock_time_parsed duration clock_time i Hclock) as [bct Hbct].
  rewrite (batch_loop_cons _ _ _ _ _ _ _ i rest w bct Hbct). cbn zeta.
  match goal with
  | |- context [execute_logging ?a ?b ?c ?d ?e ?f ?g w] =>
      destruct (execute_logging_shows a b c d e f g w)
        as (Hidle & Htype & new1 & Ht1 & Hg1 & Hs1);
      pose proof (λ q, execute_logging_other_files a b c d e f g w q) as Hfiles;
      set (w1 := execute_logging a b c d e f g w) in *
  end.
  set (w2 := if i <? 4 then sleep (BetweenRuns i) w1 else w1).
  assert (Hw2 : logging_status w2 = logging_status w1 ∧ files w2 = files w1 ∧
                trace w2 = trace w1 ++ (if i <? 4
                                        then [EvSleep (BetweenRuns i) (logging_status w1)]
                                        else [])).
  { subst w2. destruct (i <? 4); cbn; [done |]. by rewrite app_nil_r. }
  destruct Hw2 as (Hst2 & Hf2 & Ht2).
  assert (Hhead : ∀ q, q ∉ ((λ i, log_path (label +:+ "_" +:+ Py.str_int i))
                              <$> (i :: rest)) →
                       files w2 !! q = files w !! q).
  { intros q Hq. rewrite Hf2. apply Hfiles. intros ->. apply Hq. by left. }
  assert (Hnew : gaps (new1 ++ (if i <? 4
                                then [EvSleep (BetweenRuns i) (logging_status w1)]
                                else []))
                 = filter (λ i, i < 4) [i] ∧
                 Forall (λ seen, ls_type seen = "single")
                   (seen_statuses
                      (new1 ++ (if i <? 4
                                then [EvSleep (BetweenRuns i) (logging_status w1)]
                                else [])))).
  { rewrite gaps_app, seen_statuses_app, Hg1. split.
    - cbn [filter list_filter]. destruct (Z.ltb_spec i 4).
      + by rewrite decide_True.
      + by rewrite decide_False by lia.
    - apply Forall_app. split; [done |].
      destruct (i <? 4); by repeat constructor. }
  destruct Hnew as [Hg Hs].
  destruct rest as [|j rest'].
  - cbn [batch_loop fst snd]. rewrite Hst2.
    split; [done |]. split; [done |]. split; [done |]. split.
    + eexists. split; [by rewrite Ht2, Ht1, <- app_assoc |]. by split.
    + exact Hhead.
  - destruct (IH w2) as (Hret & Hact & Hty & (new2 & Htr & Hg2 & Hs2) & Hfr); [done |].
    split; [done |]. split; [done |]. split; [done |]. split.
    + exists ((new1 ++ (if i <? 4
                          then [EvSleep (BetweenRuns i) (logging_status w1)]
                          else [])) ++ new2).
      split; [by rewrite Htr, Ht2, Ht1, <- !app_assoc |].
      rewrite gaps_app, seen_statuses_app, Hg, Hg2. split.
      * change (i :: j :: rest') with ([i] ++ j :: rest'). by rewrite filter_app.
      * by apply Forall_app.
    + intros q Hq. rewrite Hfr.
      * apply Hhead, Hq.
      * intros Hin. apply Hq. by right.
Qed.

End BatchFacts.

Lemma record_batch_data_unparsed capsense_reader benv duration sample_rate label
    clock_time start_date w :
  parse_pair ":" clock_time = None →
  record_batch_data capsense_reader benv duration sample_rate label clock_time
    start_date w
  = (with_status (λ _, batch_started benv duration label) w, Raised).
Proof.
  intros Hc. unfold record_batch_data. cbn [batch_loop].
  unfold batch_clock_time. rewrite Hc. reflexivity.
Qed.

(** A batch whose clock time parses, seen from outside. *)
Lemma record_batch_data_parsed capsense_reader benv duration sample_rate label
    clock_time start_date w :
  is_Some (parse_pair ":" clock_time) →
  let r := record_batch_data capsense_reader benv duration sample_rate label
             clock_time start_date w in
  r.2 = Returned ∧
  ls_active (logging_status r.1) = false ∧
  ls_label (logging_status r.1) = "" ∧
  ls_type (logging_status r.1) = "single" ∧
  (∃ new, trace r.1 = trace w ++ new ++ [EvPrint MsgBatchFinished] ∧
          gaps new = [1; 2; 3] ∧
          Forall (λ seen, ls_type seen = "single") (seen_statuses new)) ∧
  ∀ q, q ∉ log_path <$> batch_labels label → files r.1 !! q = files w !! q.
Proof.
  intros Hclock r. subst r. unfold record_batch_data.
  set (w0 := with_status _ w).
  destruct (batch_loop_parsed capsense_reader benv duration sample_rate label
              clock_time start_date [1; 2; 3; 4] w0 Hclock)
    as (Hret & Hact & Hty & (new & Ht & Hg & Hs) & Hfr); [done |].
  destruct (batch_loop _ _ _ _ _ _ _ _ w0) as [w1 o]. cbn [fst snd] in *.
  subst o. cbn [fst snd].
  split; [done |]. split; [done |]. split; [done |]. split; [exact Hty |]. split.
  - exists new. split; [| by split].
    cbn. rewrite Ht. by rewrite <- app_assoc.
  - intros q Hq. cbn. rewrite Hfr; [done |].
    unfold batch_labels in Hq. by rewrite <- list_fmap_compose in Hq.
Qed.


(** X5. A batch whose clock time does not parse raises before its first
    sub-run: no file is written, nothing is printed, and the status stays
    active with the kind ['batch'], since nothing clears it. *)
Theorem batch_malformed_clock_stays_active capsense_reader benv duration sample_rate
    label clock_time start_date w :
  parse_pair ":" clock_time = None →
  let r := record_batch_data capsense_reader benv duration sample_rate label
             clock_time start_date w in
  r.2 = Raised ∧
  logging_status r.1 = batch_started benv duration label ∧
  files r.1 = files w ∧
  trace r.1 = trace w.
Proof.
  intros Hc r. subst r.
  rewrite (record_batch_data_unparsed _ _ _ _ _ _ _ _ Hc). done.
Qed.

Lemma batch_malformed_clock_stays_active_witness :
  ls_active (logging_status
               (record_batch_data (Some default_reader) healthy_batch 10
                  (Py.Finite (1 # 10)) "b" "noon" "2024-01-01" initial_world).1)
  = true.
Proof.
  destruct (batch_malformed_clock_stays_active (Some default_reader) healthy_batch 10
              (Py.Finite (1 # 10)) "b" "noon" "2024-01-01" initial_world eq_refl)
    as (_ & Hs & _).
  rewrite Hs. reflexivity.
Defined.



(** X7. A batch writes to no file but those of its four sub-runs,
    [logs/<label>_1.csv] to [logs/<label>_4.csv]. *)
Theorem batch_touches_four_files capsense_reader benv duration sample_rate label
    clock_time start_date w (q : string) :
  q ∉ log_path <$> batch_labels label →
  files (record_batch_data capsense_reader benv duration sample_rate label clock_time
           start_date w).1 !! q
  = files w !! q.
Proof.
  intros Hq. destruct (parse_pair ":" clock_time) as [hm|] eqn:Hc.
  - destruct (record_batch_data_parsed capsense_reader benv duration sample_rate label
                clock_time start_date w) as (_ & _ & _ & _ & _ & Hfr);
      [by rewrite Hc |].
    by apply Hfr.
  - by rewrite (record_batch_data_unparsed _ _ _ _ _ _ _ _ Hc).
Qed.

Lemma batch_touches_four_files_witness :
  let w := with_files {[ "logs/b.csv" := "kept" ]} initial_world in
  files (record_batch_data (Some default_reader) healthy_batch 10
           (Py.Finite (1 # 10)) "b" "12:00" "2024-01-01" w).1 !! "logs/b.csv"
  = Some "kept".
Proof.
  intros w.
  rewrite (batch_touches_four_files (Some default_reader) healthy_batch 10
             (Py.Finite (1 # 10)) "b" "12:00" "2024-01-01" w "logs/b.csv").
  - reflexivity.
  - unfold batch_labels. cbn [fmap list_fmap].
    rewrite !elem_of_cons, elem_of_nil.
    intros [E | [E | [E | [E | []]]]]; vm_compute in E; discriminate E.
Defined.

(** ** Clock times and timestamps *)

Lemma two_digit_clock_parses :
  forallb (λ h, forallb (λ m,
             bool_decide (parse_pair ":" (Py.fmt_0d 2 h +:+ ":" +:+ Py.fmt_0d 2 m)
                          = Some (h, m)))
             (Z.of_nat <$> seq 0 60))
          (Z.of_nat <$> seq 0 24) = true.
Proof. vm_compute. reflexivity. Qed.

Lemma fmt_clock_parses (h m : Z) :
  0 <= h < 24 → 0 <= m < 60 →
  parse_pair ":" (Py.fmt_0d 2 h +:+ ":" +:+ Py.fmt_0d 2 m) = Some (h, m).
Proof.
  intros Hh Hm. pose proof two_digit_clock_parses as H.
  rewrite forallb_forall in H.
  assert (Hin : ∀ n k, 0 <= k < Z.of_nat n → In k (Z.of_nat <$> seq 0 n)).
  { intros n k Hk. apply list_elem_of_In, list_elem_of_fmap. exists (Z.to_nat k).
    split; [lia |]. apply elem_of_seq. lia. }
  specialize (H h (Hin 24%nat h ltac:(lia))).
  rewrite forallb_forall in H.
  specialize (H m (Hin 60%nat m ltac:(lia))).
  exact (bool_decide_eq_true_1 _ H).
Qed.

(** X8. The clock time a batch hands to a sub-run always parses again, and
    what [execute_logging] reads back from it is the requested time of day
    wrapped at 24 hours: 25:61 becomes 02:01. *)
Theorem sub_run_clock_normalised duration clock_time i hours minutes :
  parse_pair ":" clock_time = Some (hours, minutes) →
  sub_run_start_seconds duration clock_time i
  = Some ((hours * 3600 + minutes * 60) mod 86400).
Proof.
  intros Hc. unfold sub_run_start_seconds, batch_clock_time. rewrite Hc.
  cbn [mbind option_bind].
  set (ss := hours * 3600 + minutes * 60).
  rewrite fmt_clock_parses.
  - cbn [mbind option_bind]. f_equal.
    assert (Hss : ss mod 60 = 0).
    { subst ss. replace (hours * 3600 + minutes * 60) with ((hours * 60 + minutes) * 60)
        by lia. apply Z.mod_mul. lia. }
    pose proof (Z.div_mod ss 3600 ltac:(lia)) as H1.
    pose proof (Z.div_mod (ss / 3600) 24 ltac:(lia)) as H2.
    pose proof (Z.div_mod (ss mod 3600) 60 ltac:(lia)) as H3.
    pose proof (Z.mod_pos_bound ss 3600 ltac:(lia)) as B1.
    pose proof (Z.mod_pos_bound (ss / 3600) 24 ltac:(lia)) as B2.
    pose proof (Z.mod_pos_bound (ss mod 3600) 60 ltac:(lia)) as B3.
    assert (H4 : (ss mod 3600) mod 60 = 0).
    { rewrite Z.mod_mod_divide; [exact Hss |]. exists 60. lia. }
    apply (Z.mod_unique_pos _ _ (ss / 3600 / 24)); lia.
  - apply Z.mod_pos_bound. lia.
  - split; [apply Z.div_pos; [apply Z.mod_pos_bound |]; lia |].
    apply Z.div_lt_upper_bound; [lia |].
    pose proof (Z.mod_pos_bound ss 3600 ltac:(lia)). lia.
Qed.

Lemma sub_run_clock_normalised_witness :
  sub_run_start_seconds 10 "25:61" 3 = Some 7260.
Proof.
  exact (sub_run_clock_normalised 10 "25:61" 3 25 61 eq_refl).
Defined.

Lemma datetime_str_fields year month day start_seconds interval i :
  datetime_str year month day start_seconds interval i
  = let '(off, h, mi, s, ms) := tick_clock start_seconds interval i in
    let '(y, m, d) := tick_date year month day off in
    Py.fmt_0d 4 y +:+ "-" +:+ Py.fmt_0d 2 m +:+ "-" +:+ Py.fmt_0d 2 d +:+ " "
    +:+ Py.fmt_0d 2 h +:+ ":" +:+ Py.fmt_0d 2 mi +:+ ":" +:+ Py.fmt_0d 2 s +:+ "."
    +:+ Py.fmt_0d 3 ms.
Proof.
  unfold datetime_str, tick_clock, tick_date. cbn zeta.
  match goal with
  | |- context [if ?c then (year, month, day) else ?r] =>
      destruct (if c then (year, month, day) else r) as [[y m] d]
  end.
  by rewrite !string_app_assoc.
Qed.







Lemma rollover_calendar fuel year month day :
  1 <= month <= 12 →
  day <= 30 * (Z.of_nat fuel + 1) →
  let '(y, m, d) := rollover fuel year month day in
  d <= 30 ∧ 1 <= m <= 12 ∧ (30 < day → 1 <= d) ∧
  (day <= 30 → (y, m, d) = (year, month, day)) ∧
  (y * 12 + m) * 30 + d = (year * 12 + month) * 30 + day.
Proof.
  revert year month day. induction fuel as [|k IH]; intros year month day Hm Hd.
  - cbn. repeat split; lia.
  - cbn [rollover]. destruct (30 <? day) eqn:E.
    + apply Z.ltb_lt in E. destruct (12 <? month + 1) eqn:E2.
      * apply Z.ltb_lt in E2.
        specialize (IH (year + 1) 1 (day - 30) ltac:(lia) ltac:(lia)).
        destruct (rollover k (year + 1) 1 (day - 30)) as [[y m] d].
        destruct IH as (H1 & H2 & H3 & H4 & H5). repeat split; try lia.
        intros _. destruct (Z.lt_ge_cases 30 (day - 30)); [by apply H3 |].
        injection (H4 ltac:(lia)) as _ _ ->. lia.
      * apply Z.ltb_ge in E2.
        specialize (IH year (month + 1) (day - 30) ltac:(lia) ltac:(lia)).
        destruct (rollover k year (month + 1) (day - 30)) as [[y m] d].
        destruct IH as (H1 & H2 & H3 & H4 & H5). repeat split; try lia.
        intros _. destruct (Z.lt_ge_cases 30 (day - 30)); [by apply H3 |].
        injection (H4 ltac:(lia)) as _ _ ->. lia.
    + apply Z.ltb_ge in E. repeat split; lia.
Qed.

(** X9. From the second day on, the date of a timestamp counts in months of
    30 days: for a start month from 1 to 12 the day printed is at most 30,
    the month stays from 1 to 12, and the date is the start date plus the
    day offset in a calendar of 360-day years; a day offset of zero prints
    the start date unchanged. *)
Theorem tick_date_thirty_day_months year month day off :
  1 <= month <= 12 →
  let '(y, m, d) := tick_date year month day off in
  (off = 0 → (y, m, d) = (year, month, day)) ∧
  (off ≠ 0 →
   d <= 30 ∧ 1 <= m <= 12 ∧
   (y * 12 + m) * 30 + d = (year * 12 + month) * 30 + day + off).
Proof.
  intros Hm. unfold tick_date. destruct (off =? 0) eqn:E.
  - apply Z.eqb_eq in E. split; [done | lia].
  - apply Z.eqb_neq in E. cbn zeta.
    pose proof (rollover_calendar (Z.to_nat (day + off)) year month (day + off) Hm
                  ltac:(lia)) as H.
    destruct (rollover (Z.to_nat (day + off)) year month (day + off)) as [[y m] d].
    destruct H as (H1 & H2 & _ & _ & H5). split; [lia |]. intros _. lia.
Qed.

Lemma tick_date_thirty_day_months_witness :
  let '(y, m, d) := tick_date 2024 12 30 1 in
  (1 = 0 → (y, m, d) = (2024, 12, 30)) ∧
  (1 ≠ 0 →
   d <= 30 ∧ 1 <= m <= 12 ∧ (y * 12 + m) * 30 + d = (2024 * 12 + 12) * 30 + 30 + 1).
Proof.
  apply (tick_date_thirty_day_months 2024 12 30 1). lia.
Defined.

(** ** The capsense reader *)

Import CapsenseMore.

(** The default configuration on a read of 18 bytes: the buffer holds the
    three raw counts, then the three diff counts, then the three
    baselines. *)
Lemma default_read r data r0 r1 r2 d0 d1 d2 b0 b1 b2 :
  Capsense.config r = Capsense.DEFAULT_CONFIG →
  Capsense.is_available r = true →
  length data = 18%nat →
  Capsense.le16 data = [r0; r1; r2; d0; d1; d2; b0; b1; b2] →
  Capsense.get_csv_string r (Some data)
  = Some (Py.join "," (Py.str_int <$> [r0; d0; b0; r1; d1; b1; r2; d2; b2])) ∧
  get_raw_data r (Some data)
  = Some (<["CSD_20" := r2]> (<["CSD_100" := r1]> (<["CSD_360" := r0]> ∅))).
Proof.
  destruct r as [cfg av]. cbn [Capsense.config Capsense.is_available].
  intros -> -> Hlen Hv.
  do 19 (destruct data as [|? data]; try discriminate Hlen).
  cbn [Capsense.le16] in Hv. injection Hv as <- <- <- <- <- <- <- <- <-.
  split; vm_compute; reflexivity.
Qed.

Lemma default_buffer_size r :
  Capsense.config r = Capsense.DEFAULT_CONFIG → Capsense.buffer_size r = 18%nat.
Proof. intros H. unfold Capsense.buffer_size. by rewrite H. Qed.

(** X11. With the default configuration, a read of 18 bytes is taken as
    three raw counts, then three diff counts, then three baselines, each a
    little-endian 16-bit value; the CSV row lists them sensor by sensor (raw
    count, diff count, baseline of CSD_360, then of CSD_100, then of
    CSD_20), and [get_raw_data] maps each sensor to its raw count. *)
Theorem capsense_row_layout r data r0 r1 r2 d0 d1 d2 b0 b1 b2 :
  Capsense.config r = Capsense.DEFAULT_CONFIG →
  Capsense.is_available r = true →
  length data = 18%nat →
  Capsense.le16 data = [r0; r1; r2; d0; d1; d2; b0; b1; b2] →
  Capsense.get_csv_string r (Some data)
  = Some (Py.join "," (Py.str_int <$> [r0; d0; b0; r1; d1; b1; r2; d2; b2])) ∧
  get_raw_data r (Some data)
  = Some (<["CSD_20" := r2]> (<["CSD_100" := r1]> (<["CSD_360" := r0]> ∅))).
Proof. apply default_read. Qed.

Lemma capsense_row_layout_witness :
  Capsense.get_csv_string default_reader
    (Some [1; 0; 2; 0; 3; 0; 4; 0; 5; 0; 6; 0; 7; 0; 8; 0; 9; 1])
  = Some "1,4,7,2,5,8,3,6,265".
Proof.
  exact (proj1 (capsense_row_layout default_reader
                  [1; 0; 2; 0; 3; 0; 4; 0; 5; 0; 6; 0; 7; 0; 8; 0; 9; 1]
                  1 2 3 4 5 6 7 8 265 eq_refl eq_refl eq_refl eq_refl)).
Defined.

(** X12. With the default configuration the capsense read yields a row
    exactly when the sensor was found at start-up and the bus answers 18
    bytes; in every other case [get_csv_string] returns [None] and the row
    of a tick carries the twelve [EMPTY] sentinels. *)
Theorem capsense_read_succeeds_exactly r bus :
  Capsense.config r = Capsense.DEFAULT_CONFIG →
  (is_Some (Capsense.get_csv_string r bus) ↔
   Capsense.is_available r = true ∧ ∃ data, bus = Some data ∧ length data = 18%nat) ∧
  (Capsense.get_csv_string r bus = None →
   ∀ te, i2c te = bus → get_capsense_data (Some r) te = empty_row).
Proof.
  intros Hcfg. split; [split |].
  - intros [csv Hcsv].
    assert (Hraw : is_Some (Capsense.read_raw_data r bus)).
    { unfold Capsense.get_csv_string, Capsense.read_sensor_data in Hcsv.
      destruct (Capsense.read_raw_data r bus); [by eexists | done]. }
    unfold Capsense.read_raw_data in Hraw.
    destruct (Capsense.is_available r); [| by destruct Hraw].
    destruct bus as [data|]; [| by destruct Hraw]. cbn [mbind option_bind] in Hraw.
    rewrite (default_buffer_size r Hcfg) in Hraw.
    destruct (Nat.eqb_spec (length data) 18) as [Hlen|Hlen]; [| by destruct Hraw].
    split; [done |]. by exists data.
  - intros (Hav & data & -> & Hlen).
    assert (∃ vs, Capsense.le16 data = vs ∧ length vs = 9%nat) as (vs & Hvs & Hl).
    { do 19 (destruct data as [|? data]; try discriminate Hlen). by eexists. }
    do 10 (destruct vs as [|? vs]; try discriminate Hl).
    destruct (default_read r data _ _ _ _ _ _ _ _ _ Hcfg Hav Hlen Hvs) as [-> _].
    by eexists.
  - intros Hnone te <-. unfold get_capsense_data. by rewrite Hnone.
Qed.

Lemma capsense_read_succeeds_exactly_witness :
  get_capsense_data (Some default_reader) sensors_down_tick = empty_row.
Proof.
  destruct (capsense_read_succeeds_exactly default_reader None eq_refl) as [_ H].
  apply H; reflexivity.
Defined.

Lemma check_from_found addr scan n k :
  check_from addr scan n k = true ↔
  ∃ j devices, (k ≤ j < k + n)%nat ∧ scan j = Some devices ∧ addr ∈ devices.
Proof.
  revert k. induction n as [|n IH]; intros k; cbn [check_from].
  { split; [done |]. intros (j & ? & ? & _). lia. }
  destruct (scan k) as [devices|] eqn:Hk.
  - case_bool_decide as Hin.
    + split; [| done]. intros _. exists k, devices. split; [lia | done].
    + rewrite IH. split.
      * intros (j & ds & Hj & Hs & Hd). exists j, ds. split; [lia | done].
      * intros (j & ds & Hj & Hs & Hd). exists j, ds. split; [| done].
        destruct (decide (j = k)) as [->|]; [| lia]. congruence.
  - rewrite IH. split.
    + intros (j & ds & Hj & Hs & Hd). exists j, ds. split; [lia | done].
    + intros (j & ds & Hj & Hs & Hd). exists j, ds. split; [| done].
      destruct (decide (j = k)) as [->|]; [| lia]. congruence.
Qed.

Lemma check_sensor_availability_found cfg scan max_attempts :
  check_sensor_availability cfg scan max_attempts = true ↔
  ∃ j devices, (j < max_attempts)%nat ∧ scan j = Some devices ∧
               Capsense.sensor_address cfg ∈ devices.
Proof.
  unfold check_sensor_availability. rewrite check_from_found. split.
  - intros (j & ds & Hj & H). exists j, ds. split; [lia | done].
  - intros (j & ds & Hj & H). exists j, ds. split; [lia | done].
Qed.

(** X13. The start-up check finds the sensor exactly when one of the first
    [max_attempts] bus scans succeeds and lists the sensor's address; a
    scan that raises counts as an attempt like one that misses. *)
Theorem sensor_found_within_attempts cfg scan max_attempts :
  check_sensor_availability cfg scan max_attempts = true ↔
  ∃ j devices, (j < max_attempts)%nat ∧ scan j = Some devices ∧
               Capsense.sensor_address cfg ∈ devices.
Proof. apply check_sensor_availability_found. Qed.

(** X14. A reader whose three start-up scans did not find the sensor never
    reads it afterwards: whatever the bus answers later, every row carries
    the twelve [EMPTY] sentinels. *)
Theorem sensor_missed_at_start_stays_empty cfg scan te :
  (∀ j devices, (j < 3)%nat → scan j = Some devices →
                Capsense.sensor_address cfg ∉ devices) →
  get_capsense_data (Some (new_reader cfg scan)) te = empty_row.
Proof.
  intros Hmiss.
  assert (Hav : Capsense.is_available (new_reader cfg scan) = false).
  { change (check_sensor_availability cfg scan 3 = false).
    apply not_true_is_false. rewrite check_sensor_availability_found.
    intros (j & ds & Hj & Hs & Hin). by apply (Hmiss j ds). }
  unfold get_capsense_data, Capsense.get_csv_string, Capsense.read_sensor_data,
    Capsense.read_raw_data.
  by rewrite Hav.
Qed.

Lemma sensor_missed_at_start_stays_empty_witness :
  get_capsense_data (Some (new_reader Capsense.DEFAULT_CONFIG (λ _, Some [8; 10])))
    healthy_tick
  = empty_row.
Proof.
  apply sensor_missed_at_start_stays_empty.
  intros j devices _ [= <-]. change (9 ∉ [8; 10]).
  rewrite !elem_of_cons, elem_of_nil. lia.
Defined.

Lemma foldM_fails {A S} (f : S → A → option S) (s : S) (l1 l2 : list A) (x : A) :
  (∀ s', f s' x = None) → foldM f s (l1 ++ x :: l2) = None.
Proof.
  intros Hx. revert s. induction l1 as [|y l1 IH]; intros s; cbn [app foldM].
  - by rewrite Hx.
  - destruct (f s y) as [s'|]; [apply IH | done].
Qed.

Lemma initial_sensor_data_lookup (names : list string) (name : string)
    (d : gmap string (gmap string Z)) :
  name ∉ names → d !! name = None →
  foldl (λ d sensor_name, <[sensor_name := ∅]> d) d names !! name = None.
Proof.
  revert d. induction names as [|n names IH]; intros d Hn Hd; [done |].
  cbn [foldl]. apply IH.
  - intros Hin. apply Hn. by right.
  - rewrite lookup_insert_ne; [done |]. intros ->. apply Hn. by left.
Qed.

(** X15. [read_sensor_data] names the sensors by a fixed table of three
    names, so it raises for every configuration of more than three sensors,
    and for every configuration with a sensor and a value name whose
    sensors do not include ['CSD_360']: such a reader never yields a row. *)
Theorem fixed_sensor_table_limits r bus :
  (3 < Capsense.num_sensors (Capsense.config r))%nat ∨
  ((0 < Capsense.num_sensors (Capsense.config r))%nat ∧
   Capsense.value_names (Capsense.config r) ≠ [] ∧
   "CSD_360" ∉ take (Capsense.num_sensors (Capsense.config r))
                    (Capsense.sensor_names (Capsense.config r))) →
  Capsense.read_sensor_data r bus = None ∧
  Capsense.get_csv_string r bus = None ∧
  get_raw_data r bus = None.
Proof.
  intros H.
  assert (Hread : Capsense.read_sensor_data r bus = None).
  { unfold Capsense.read_sensor_data.
    destruct (Capsense.read_raw_data r bus) as [raw|]; [| done].
    cbn [mbind option_bind].
    destruct (Capsense.unpack_H _ raw) as [values|]; [| done].
    cbn [mbind option_bind]. cbn zeta.
    set (ns := Capsense.num_sensors (Capsense.config r)) in *.
    destruct H as [Hbig | (Hpos & Hvn & Hname)].
    - replace ns with (3 + S (ns - 4))%nat by lia.
      rewrite seq_app. cbn [seq Nat.add].
      apply (foldM_fails _ _ [0; 1; 2]%nat). intros s'. reflexivity.
    - destruct ns as [|ns'] eqn:Ens; [lia |]. cbn [seq foldM].
      change (Capsense.index_to_sensor !! 0%nat) with (Some "CSD_360").
      cbn [mbind option_bind].
      destruct (Capsense.value_names (Capsense.config r)) as [|v vs]; [done |].
      change (Capsense.enumerate (v :: vs))
        with ((0%nat, v) :: zip (seq 1 (length vs)) vs).
      cbn [foldM].
      rewrite initial_sensor_data_lookup; [done | exact Hname | done]. }
  unfold Capsense.get_csv_string, get_raw_data. by rewrite Hread.
Qed.

Lemma fixed_sensor_table_limits_witness :
  let r := {| Capsense.config := create_custom_config ["A"; "B"]
                                   ["RawCount"; "DiffCount"] 9;
              Capsense.is_available := true |} in
  Capsense.get_csv_string r (Some [1; 0; 2; 0; 3; 0; 4; 0]) = None.
Proof.
  intros r.
  refine (proj1 (proj2 (fixed_sensor_table_limits r _ _))).
  right. split; [cbn; lia |]. split; [done |].
  change ("CSD_360" ∉ ["A"; "B"]).
  rewrite !elem_of_cons, elem_of_nil. intros [E | [E | []]]; discriminate E.
Defined.

Lemma get_csv_string_fields r bus csv :
  Capsense.get_csv_string r bus = Some csv →
  commas csv = Nat.pred (length (Capsense.columns r)).
Proof.
  unfold Capsense.get_csv_string.
  destruct (Capsense.read_sensor_data r bus) as [data|]; [| done].
  cbn [mbind option_bind].
  destruct (mapM _ (Capsense.columns r)) as [values|] eqn:Hm; [| done].
  cbn [mbind option_bind]. intros [= <-].
  rewrite (length_mapM _ _ _ Hm).
  apply commas_join_plain.
  apply mapM_Some in Hm.
  induction Hm as [|[sn vn] v cols vs Hv _ IH]; constructor; [| exact IH].
  cbn beta iota in Hv.
  destruct (data !! sn) as [inner|]; [| done]. cbn in Hv.
  destruct (inner !! vn) as [x|]; [| done]. cbn in Hv.
  injection Hv as <-. apply commas_str_int.
Qed.

(** X16. For every configuration whose sensor and value names hold no
    comma, a row that [get_csv_string] returns has as many fields as the
    header that [get_csv_header] returns. *)
Theorem capsense_header_matches_row r bus csv :
  Forall (λ n, commas n = 0%nat) (Capsense.sensor_names (Capsense.config r)) →
  Forall (λ n, commas n = 0%nat) (Capsense.value_names (Capsense.config r)) →
  Capsense.get_csv_string r bus = Some csv →
  field_count csv = field_count (Capsense.get_csv_header r).
Proof.
  intros Hs Hv Hcsv. rewrite !field_count_commas. f_equal.
  rewrite (get_csv_string_fields r bus csv Hcsv).
  unfold Capsense.get_csv_header. rewrite commas_join_plain.
  { by rewrite length_fmap. }
  apply Forall_fmap, Forall_forall. intros [sn vn] Hin. cbn.
  unfold Capsense.columns in Hin.
  apply list_elem_of_bind in Hin as (sn' & Hin & Hsn).
  apply list_elem_of_bind in Hin as (vn' & Hin & Hvn).
  apply list_elem_of_singleton in Hin. injection Hin as -> ->.
  apply (Forall_take _ (Capsense.num_sensors (Capsense.config r))) in Hs.
  apply (Forall_take _ (Capsense.values_per_sensor (Capsense.config r))) in Hv.
  rewrite Forall_forall in Hs, Hv.
  rewrite !commas_app, (Hs _ Hsn), (Hv _ Hvn). reflexivity.
Qed.

Lemma capsense_header_matches_row_witness :
  field_count "1,4,7,2,5,8,3,6,265"
  = field_count (Capsense.get_csv_header default_reader).
Proof.
  apply (capsense_header_matches_row default_reader
           (Some [1; 0; 2; 0; 3; 0; 4; 0; 5; 0; 6; 0; 7; 0; 8; 0; 9; 1])).
  - by repeat constructor.
  - by repeat constructor.
  - vm_compute. reflexivity.
Defined.

(** ** Reading a request *)

Lemma slen_app (a b : string) :
  String.length (a +:+ b) = (String.length a + String.length b)%nat.
Proof.
  induction a as [|c a IH]; [done |].
  rewrite string_app_cons. cbn [String.length]. by rewrite IH.
Qed.

Lemma take_drop_chars n s : take_chars n s +:+ Py.drop_chars n s = s.
Proof.
  revert s. induction n as [|n IH]; intros [|c t]; try done.
  cbn [take_chars Py.drop_chars]. by rewrite string_app_cons, IH.
Qed.

Lemma take_chars_length n s :
  String.length (take_chars n s) = Nat.min n (String.length s).
Proof.
  revert s. induction n as [|n IH]; intros [|c t]; try done.
  cbn [take_chars String.length]. by rewrite IH.
Qed.

Lemma drop_chars_length n s :
  String.length (Py.drop_chars n s) = (String.length s - n)%nat.
Proof.
  revert s. induction n as [|n IH]; intros [|c t]; try done.
  cbn [Py.drop_chars String.length]. by rewrite IH.
Qed.

Lemma take_chars_all n s : (String.length s ≤ n)%nat → take_chars n s = s.
Proof.
  revert s. induction n as [|n IH]; intros [|c t] H; try done; cbn in H; try lia.
  cbn [take_chars]. rewrite IH; [done | lia].
Qed.

Lemma take_chars_app n a b :
  (String.length a ≤ n)%nat →
  take_chars n (a +:+ b) = a +:+ take_chars (n - String.length a) b.
Proof.
  revert n. induction a as [|c a IH]; intros n H.
  - cbn. by rewrite Nat.sub_0_r.
  - cbn [String.length] in H. destruct n as [|n]; [lia |].
    rewrite !string_app_cons. cbn [take_chars String.length Nat.sub].
    rewrite IH; [done | lia].
Qed.

Lemma take_chars_split n m s :
  take_chars (n + m) s = take_chars n s +:+ take_chars m (Py.drop_chars n s).
Proof.
  revert s. induction n as [|n IH]; intros s; [by destruct s |].
  destruct s as [|c t]; [by destruct m |].
  cbn [Nat.add take_chars Py.drop_chars]. by rewrite string_app_cons, IH.
Qed.

Lemma take_chars_within n a b :
  (n ≤ String.length a)%nat → take_chars n (a +:+ b) = take_chars n a.
Proof.
  revert a. induction n as [|n IH]; intros a H; [by destruct a, b |].
  destruct a as [|c a]; [cbn in H; lia |].
  rewrite string_app_cons. cbn [take_chars]. rewrite IH; [done |].
  cbn in H. lia.
Qed.

Lemma drop_chars_within n a b :
  (n ≤ String.length a)%nat → Py.drop_chars n (a +:+ b) = Py.drop_chars n a +:+ b.
Proof.
  revert a. induction n as [|n IH]; intros a H; [done |].
  destruct a as [|c a]; [cbn in H; lia |].
  rewrite string_app_cons. cbn [Py.drop_chars]. apply IH. cbn in H. lia.
Qed.



Lemma recv_bounded n cl data cl' :
  recv n cl = (Some data, cl') → (String.length data ≤ n)%nat.
Proof.
  unfold recv. destruct cl as [|[d|] rest].
  - intros [= <- <-]. cbn. lia.
  - destruct (Nat.leb_spec (String.length d) n).
    + by intros [= <- <-].
    + intros [= <- <-]. rewrite take_chars_length. lia.
  - done.
Qed.

(** The body loop only appends to the body, and stops at the declared
    length. *)
Lemma read_more_bounded fuel content_length body cl :
  ∃ more,
    (read_more fuel content_length body cl).1 = body +:+ more ∧
    Z.of_nat (String.length (read_more fuel content_length body cl).1)
    <= Z.max (Z.of_nat (String.length body)) content_length.
Proof.
  revert body cl. induction fuel as [|k IH]; intros body cl; cbn [read_more].
  { exists "". rewrite string_app_nil_r. cbn. split; [done | lia]. }
  destruct (Z.ltb_spec (Z.of_nat (String.length body)) content_length) as [Hlt|Hge].
  2: { exists "". rewrite string_app_nil_r. cbn. split; [done | lia]. }
  cbn zeta.
  destruct (recv _ cl) as [[data|] cl'] eqn:Hrecv.
  2: { exists "". rewrite string_app_nil_r. cbn. split; [done | lia]. }
  destruct data as [|c data].
  { exists "". rewrite string_app_nil_r. cbn. split; [done | lia]. }
  apply recv_bounded in Hrecv.
  destruct (IH (body +:+ String c data) cl') as (more & Hm & Hb).
  exists (String c data +:+ more). split.
  - by rewrite Hm, string_app_assoc.
  - rewrite slen_app in Hb. lia.
Qed.

(** When the peer delivers what is missing, the body loop reads exactly the
    missing characters, however they are cut into segments. *)
Lemma read_more_delivered fuel content_length body cl :
  let missing := Z.to_nat (content_length - Z.of_nat (String.length body)) in
  (missing ≤ fuel)%nat →
  delivers cl →
  (missing ≤ String.length (arriving cl))%nat →
  (read_more fuel content_length body cl).1 = body +:+ take_chars missing (arriving cl).
Proof.
  revert body cl. induction fuel as [|k IH]; intros body cl missing Hf Hd Ha.
  { replace missing with 0%nat by lia. cbn. by rewrite string_app_nil_r. }
  cbn [read_more].
  destruct (Z.ltb_spec (Z.of_nat (String.length body)) content_length) as [Hlt|Hge].
  2: { replace missing with 0%nat by lia. cbn. by rewrite string_app_nil_r. }
  cbn zeta.
  set (n := Z.to_nat (Z.min (content_length - Z.of_nat (String.length body)) 1024)).
  assert (Hn : (1 ≤ n ≤ missing)%nat) by lia.
  destruct cl as [|seg rest]; [cbn in Ha; lia |].
  apply Forall_cons in Hd as [(c & t & ->) Hd].
  assert (Hd1 : (1 ≤ String.length (String c t))%nat) by (cbn; lia).
  set (d := String c t) in *.
  change (arriving (Some d :: rest)) with (d +:+ arriving rest) in *.
  rewrite slen_app in Ha.
  cbn [recv]. destruct (Nat.leb_spec (String.length d) n) as [Hle|Hgt].
  - subst d. cbn iota. set (d := String c t) in *.
    rewrite IH; [| rewrite slen_app; lia | exact Hd | rewrite slen_app; lia].
    rewrite string_app_assoc, take_chars_app by lia. do 3 f_equal.
    rewrite slen_app. lia.
  - assert (Htake : ∃ c' t', take_chars n d = String c' t').
    { subst d. destruct n as [|n']; [lia |]. cbn [take_chars]. by eexists _, _. }
    destruct Htake as (c' & t' & Htake). rewrite Htake. cbn iota. rewrite <- Htake.
    assert (Hdrop : ∃ c'' t'', Py.drop_chars n d = String c'' t'').
    { pose proof (drop_chars_length n d) as Hl.
      destruct (Py.drop_chars n d) as [|c'' t'']; [| by eexists _, _].
      change (String.length "") with 0%nat in Hl. lia. }
    rewrite IH.
    + change (arriving (Some (Py.drop_chars n d) :: rest))
        with (Py.drop_chars n d +:+ arriving rest).
      rewrite string_app_assoc. f_equal.
      rewrite slen_app, take_chars_length.
      replace (take_chars missing (d +:+ arriving rest))
        with (take_chars (n + (missing - n)) (d +:+ arriving rest))
        by (f_equal; lia).
      rewrite take_chars_split, (take_chars_within n d (arriving rest)),
        (drop_chars_within n d (arriving rest)) by lia.
      do 2 f_equal. lia.
    + rewrite slen_app, take_chars_length. lia.
    + constructor; [| exact Hd]. destruct Hdrop as (c'' & t'' & ->). by eexists _, _.
    + change (arriving (Some (Py.drop_chars n d) :: rest))
        with (Py.drop_chars n d +:+ arriving rest).
      rewrite !slen_app, take_chars_length, drop_chars_length. lia.
Qed.

(** The fuel [read_http_request] gives the body loop is enough: one more
    round changes nothing. *)
Lemma read_more_fuel_enough fuel content_length body cl :
  (Z.to_nat (content_length - Z.of_nat (String.length body)) ≤ fuel)%nat →
  read_more (S fuel) content_length body cl = read_more fuel content_length body cl.
Proof.
  revert body cl. induction fuel as [|k IH]; intros body cl Hf.
  - cbn [read_more].
    destruct (Z.ltb_spec (Z.of_nat (String.length body)) content_length); [lia | done].
  - cbn [read_more] in *.
    destruct (Z.ltb_spec (Z.of_nat (String.length body)) content_length); [| done].
    cbn zeta. destruct (recv _ cl) as [[[|c data]|] cl']; try done.
    apply IH. rewrite slen_app. cbn [String.length]. lia.
Qed.

Lemma recv_first request rest :
  (String.length request ≤ 4096)%nat →
  recv 4096 (Some request :: rest) = (Some request, rest).
Proof.
  intros H. cbn [recv]. by destruct (Nat.leb_spec (String.length request) 4096); [| lia].
Qed.


(** What [read_http_request] returns after a first read that succeeded. *)
Lemma read_http_request_parts request rest :
  (String.length request ≤ 4096)%nat →
  let r := read_http_request (Some request :: rest) in
  r.1.1 = (split_request request).1 ∧
  ∃ more,
    r.1.2 = (split_request request).2 +:+ more ∧
    ∀ n, content_length_of (split_str CRLF r.1.1) = Some n →
         Z.of_nat (String.length r.1.2)
         <= Z.max (Z.of_nat (String.length (split_request request).2)) n.
Proof.
  intros Hlen r. subst r. unfold read_http_request. rewrite recv_first by done.
  destruct (split_request request) as [h0 b0]. cbn [fst snd].
  assert (Hsame : ∀ cl' : list (option string),
            ((h0, b0, cl').1.1 = h0 ∧
             ∃ more, (h0, b0, cl').1.2 = b0 +:+ more ∧
               ∀ n, content_length_of (split_str CRLF (h0, b0, cl').1.1) = Some n →
                    Z.of_nat (String.length (h0, b0, cl').1.2)
                    <= Z.max (Z.of_nat (String.length b0)) n)).
  { intros cl'. cbn. split; [done |]. exists "". rewrite string_app_nil_r.
    split; [done |]. intros n _. lia. }
  destruct (Py.contains "POST" h0 && Py.contains "Content-Length:" h0);
    [| apply Hsame].
  destruct (content_length_of (split_str CRLF h0)) as [n|] eqn:Hn; [| apply Hsame].
  cbn zeta.
  destruct (read_more_bounded (Z.to_nat (n - Z.of_nat (String.length b0))) n b0 rest)
    as (more & Hm & Hb).
  destruct (read_more _ n b0 rest) as [b' cl'']. cbn [fst snd] in *.
  split; [done |]. exists more. split; [done |].
  intros n'. rewrite Hn. intros [= <-]. exact Hb.
Qed.



(** X18. The body is read past the first read only up to the declared
    content length: the body returned is never longer than the longer of
    the part that came with the first read and the content length. *)
Theorem body_stops_at_content_length request rest n :
  (String.length request ≤ 4096)%nat →
  let r := read_http_request (Some request :: rest) in
  content_length_of (split_str CRLF r.1.1) = Some n →
  Z.of_nat (String.length r.1.2)
  <= Z.max (Z.of_nat (String.length (split_request request).2)) n.
Proof.
  intros Hlen r Hn.
  destruct (read_http_request_parts request rest Hlen) as (_ & more & _ & Hb).
  by apply Hb.
Qed.

Lemma body_stops_at_content_length_witness :
  let request := "POST /start_batch HTTP/1.1" +:+ CRLF +:+ "Content-Length: 11"
                 +:+ blank_line +:+ "duration=3" in
  let r := read_http_request [Some request; Some "0&x=1"] in
  Z.of_nat (String.length r.1.2) <= Z.max (Z.of_nat (String.length "duration=3")) 11.
Proof.
  intros request r.
  apply (body_stops_at_content_length request [Some "0&x=1"] 11).
  - vm_compute. lia.
  - vm_compute. reflexivity.
Defined.

(** X19. A POST body that arrives in pieces is put together in full: when
    the headers declare a content length and the peer delivers at least the
    characters missing after the first read, however they are cut into
    segments, the body returned is the first part followed by exactly the
    missing characters. *)
Theorem body_read_in_full request rest n :
  (String.length request ≤ 4096)%nat →
  let '(headers, body0) := split_request request in
  Py.contains "POST" headers = true →
  Py.contains "Content-Length:" headers = true →
  content_length_of (split_str CRLF headers) = Some n →
  let missing := Z.to_nat (n - Z.of_nat (String.length body0)) in
  delivers rest →
  (missing ≤ String.length (arriving rest))%nat →
  (read_http_request (Some request :: rest)).1
  = (headers, body0 +:+ take_chars missing (arriving rest)).
Proof.
  intros Hlen. destruct (split_request request) as [h0 b0] eqn:Hsplit.
  intros Hpost Hcl Hn missing Hd Ha.
  unfold read_http_request. rewrite recv_first, Hsplit, Hpost, Hcl, Hn by done.
  cbn [andb]. cbn zeta.
  pose proof (read_more_delivered (Z.to_nat (n - Z.of_nat (String.length b0))) n b0
                rest (le_n _) Hd Ha) as Hfull.
  destruct (read_more _ n b0 rest) as [b' cl'']. cbn [fst] in *. by rewrite Hfull.
Qed.

Lemma body_read_in_full_witness :
  let request := "POST /start_batch HTTP/1.1" +:+ CRLF +:+ "Content-Length: 15"
                 +:+ blank_line +:+ "duration=3" in
  (read_http_request [Some request; Some "0&"; Some "x=1&y=2"]).1
  = ("POST /start_batch HTTP/1.1" +:+ CRLF +:+ "Content-Length: 15",
     "duration=30&x=1").
Proof.
  intros request.
  pose proof (body_read_in_full request [Some "0&"; Some "x=1&y=2"] 15) as H.
  assert (Hs : split_request request
               = ("POST /start_batch HTTP/1.1" +:+ CRLF +:+ "Content-Length: 15",
                  "duration=3")) by (vm_compute; reflexivity).
  rewrite Hs in H. apply H.
  - vm_compute. lia.
  - vm_compute. reflexivity.
  - vm_compute. reflexivity.
  - vm_compute. reflexivity.
  - repeat constructor; by eexists _, _.
  - vm_compute. lia.
Defined.

(** X20. A request is read with a single [recv] unless its headers hold
    both the text [POST] and the text [Content-Length:] in exactly that
    spelling: a GET, or a POST whose header is spelled [content-length:],
    gets the body that came with the first read and nothing more. *)
Theorem single_read_without_content_length request rest :
  (String.length request ≤ 4096)%nat →
  let '(headers, body0) := split_request request in
  Py.contains "POST" headers && Py.contains "Content-Length:" headers = false →
  read_http_request (Some request :: rest) = ((headers, body0), rest).
Proof.
  intros Hlen. destruct (split_request request) as [h0 b0] eqn:Hsplit.
  intros Hgate. unfold read_http_request. by rewrite recv_first, Hsplit, Hgate.
Qed.

Lemma single_read_without_content_length_witness :
  let request := "POST /start_batch HTTP/1.1" +:+ CRLF +:+ "content-length: 15"
                 +:+ blank_line +:+ "duration=3" in
  (read_http_request [Some request; Some "0&x=1"]).1.2 = "duration=3".
Proof.
  intros request.
  pose proof (single_read_without_content_length request [Some "0&x=1"]) as H.
  assert (Hs : split_request request
               = ("POST /start_batch HTTP/1.1" +:+ CRLF +:+ "content-length: 15",
                  "duration=3")) by (vm_compute; reflexivity).
  rewrite Hs in H. rewrite H; [reflexivity | vm_compute; lia | vm_compute; reflexivity].
Defined.

(** ** The form decoder and the routes *)

Lemma parse_form_data_fold body :
  parse_form_data body = foldl add_pair ∅ (Py.split "&" body).
Proof. by destruct body. Qed.

Lemma split_nonempty sep s : Py.split sep s ≠ [].
Proof.
  destruct s as [|c t]; [done |]. cbn [Py.split].
  destruct (Ascii.eqb c sep); [done |]. by destruct (Py.split sep t).
Qed.

Lemma split_app sep a b :
  Py.split sep (a +:+ String sep b) = Py.split sep a ++ Py.split sep b.
Proof.
  induction a as [|c a IH].
  - change ("" +:+ String sep b) with (String sep b). cbn [Py.split].
    by rewrite Ascii.eqb_refl.
  - rewrite string_app_cons. cbn [Py.split]. rewrite IH.
    destruct (Ascii.eqb c sep); [done |].
    pose proof (split_nonempty sep a) as Hne.
    by destruct (Py.split sep a).
Qed.

Lemma split_plain sep s : has_char sep s = false → Py.split sep s = [s].
Proof.
  induction s as [|c t IH]; [done |]. cbn [has_char Py.split].
  intros H. apply orb_false_elim in H as [-> H]. by rewrite (IH H).
Qed.

Lemma split_first_char sep a b :
  has_char sep a = false →
  Py.split_first (String sep "") (a +:+ String sep b) = Some (a, b).
Proof.
  induction a as [|c a IH]; intros H.
  - change ("" +:+ String sep b) with (String sep b). cbn [Py.split_first String.prefix].
    destruct (ascii_dec sep sep); [| done]. by destruct b.
  - cbn [has_char] in H. apply orb_false_elim in H as [Hc H].
    rewrite string_app_cons. cbn [Py.split_first String.prefix].
    destruct (ascii_dec sep c) as [->|Hne]; [by rewrite Ascii.eqb_refl in Hc |].
    by rewrite (IH H).
Qed.

Lemma split_first_plain sep s :
  has_char sep s = false → Py.split_first (String sep "") s = None.
Proof.
  induction s as [|c t IH]; [done |]. cbn [has_char]. intros H.
  apply orb_false_elim in H as [Hc H].
  cbn [Py.split_first String.prefix].
  destruct (ascii_dec sep c) as [->|Hne]; [by rewrite Ascii.eqb_refl in Hc |].
  by rewrite (IH H).
Qed.

Lemma has_char_app c a b : has_char c (a +:+ b) = has_char c a || has_char c b.
Proof.
  induction a as [|x a IH]; [done |].
  rewrite string_app_cons. cbn [has_char]. by rewrite IH, orb_assoc.
Qed.

(** X21. A pair [key=value] at the end of a form body sets [key] to the
    decoded value and leaves the other keys as the rest of the body set
    them, so of two pairs with the same key the later one wins. *)
Theorem form_last_pair_wins body key value :
  has_char "&" key = false →
  has_char "=" key = false →
  has_char "&" value = false →
  parse_form_data (body +:+ "&" +:+ key +:+ "=" +:+ value)
  = <[key := decode_value value]> (parse_form_data body).
Proof.
  intros Hk1 Hk2 Hv.
  rewrite !parse_form_data_fold.
  change ("&" +:+ key +:+ "=" +:+ value) with (String "&" (key +:+ String "=" value)).
  rewrite split_app, foldl_app.
  rewrite (split_plain "&" (key +:+ String "=" value)).
  - cbn [foldl]. unfold add_pair at 1. by rewrite split_first_char.
  - rewrite has_char_app. cbn [has_char]. by rewrite Hk1, Hv.
Qed.

Lemma form_last_pair_wins_witness :
  get (parse_form_data ("label=a&duration=5" +:+ "&" +:+ "label" +:+ "=" +:+ "b%20c"))
      "label" "default"
  = "b c".
Proof.
  rewrite (form_last_pair_wins "label=a&duration=5" "label" "b%20c")
    by reflexivity.
  unfold get. rewrite lookup_insert_eq. reflexivity.
Defined.

(** X22. A piece of a form body that holds no [=] is dropped without an
    error: the mapping is the one of the body without it. *)
Theorem form_piece_without_equals_dropped body piece :
  has_char "&" piece = false →
  has_char "=" piece = false →
  parse_form_data (body +:+ "&" +:+ piece) = parse_form_data body.
Proof.
  intros Hp1 Hp2. rewrite !parse_form_data_fold.
  change ("&" +:+ piece) with (String "&" piece).
  rewrite split_app, foldl_app, (split_plain "&" piece) by done.
  cbn [foldl]. unfold add_pair at 1. by rewrite split_first_plain.
Qed.

Lemma form_piece_without_equals_dropped_witness :
  parse_form_data ("duration=5" +:+ "&" +:+ "flag") = parse_form_data "duration=5".
Proof.
  apply form_piece_without_equals_dropped; reflexivity.
Defined.

Lemma replace_absent old new s :
  Py.contains old s = false → Py.replace old new s = s.
Proof.
  unfold Py.replace. induction s as [|c t IH]; [done |].
  cbn [Py.contains]. intros H. apply orb_false_elim in H as [Hp Ht].
  cbn [Py.replace_from]. rewrite Hp. by rewrite (IH Ht).
Qed.

(** X23. Only the escapes [%20], [%3A] and [%2D] are decoded: a value in
    which none of the three occurs is passed on unchanged, any other
    percent escape included. *)
Theorem other_escapes_pass_through value :
  Py.contains "%20" value = false →
  Py.contains "%3A" value = false →
  Py.contains "%2D" value = false →
  decode_value value = value.
Proof.
  intros H1 H2 H3. unfold decode_value.
  rewrite (replace_absent "%20" " " value H1).
  rewrite (replace_absent "%3A" ":" value H2).
  by rewrite (replace_absent "%2D" "-" value H3).
Qed.

Lemma other_escapes_pass_through_witness : decode_value "a%2Fb%3a" = "a%2Fb%3a".
Proof. apply other_escapes_pass_through; reflexivity. Defined.

(** X24. The handler creates a task only for a request whose headers hold
    the text [POST] and one of the two start paths and do not hold the
    texts of the root page; it then answers 200.  No other request starts a
    session. *)
Theorem task_only_on_post html t st headers body task :
  spawned (handle_request html t st headers body) = Some task →
  Py.contains "POST" headers = true ∧
  (Py.contains "/start_logging" headers = true ∨
   Py.contains "/start_batch" headers = true) ∧
  Py.contains "GET / " headers = false ∧
  Py.contains "GET / HTTP/1.1" headers = false ∧
  sent (handle_request html t st headers body) = Some ok_response.
Proof.
  unfold handle_request, route.
  destruct (Py.contains "GET / " headers); [done |].
  destruct (Py.contains "GET / HTTP/1.1" headers); [done |]. cbn [orb].
  destruct (Py.contains "POST" headers); cbn [andb].
  2: { by destruct (Py.contains "GET /status" headers). }
  destruct (Py.contains "/start_logging" headers).
  { destruct (form_arguments (parse_form_data body) "default")
      as [[[[[d q] l] c] sd]|]; [| done].
    cbn. intros _. repeat split; auto. }
  destruct (Py.contains "/start_batch" headers).
  { destruct (form_arguments (parse_form_data body) "batch")
      as [[[[[d q] l] c] sd]|]; [| done].
    cbn. intros _. repeat split; auto. }
  by destruct (Py.contains "GET /status" headers).
Qed.

Lemma task_only_on_post_witness :
  Py.contains "POST" "POST /start_logging HTTP/1.1" = true.
Proof.
  exact (proj1 (task_only_on_post "" 0 initial_status "POST /start_logging HTTP/1.1"
                  "duration=5" (ExecuteLogging 5 (Py.Finite (1 # 10)) "default"
                                  "12:00" "2024-01-01") eq_refl)).
Defined.

(** X25. While a session runs, a status request is answered with the line
    of an active single session under the session's label, with the
    seconds since its start and the seconds left of its duration, never
    below zero; once the session has ended, on any path, the answer is
    [IDLE]. *)
Theorem status_line_of_session capsense_reader env duration sample_rate label
    clock_time start_date w t :
  let w' := execute_logging capsense_reader env duration sample_rate label
              clock_time start_date w in
  Forall (λ seen,
            status_text t seen
            = "ACTIVE: single '" +:+ label +:+ "' - " +:+ Py.str_int (t - now env)
              +:+ "s elapsed, "
              +:+ Py.str_int (Z.max 0 (duration - (t - now env)))
              +:+ "s remaining")
         (seen_statuses (new_events w w')) ∧
  status_text t (logging_status w') = "IDLE".
Proof.
  intros w'.
  assert (Hcases :
            (∃ p, plan duration sample_rate clock_time start_date = Some p ∧
                  create env = Created ∧ reopen_ok env = true) ∨
            (plan duration sample_rate clock_time start_date = None ∨
             create env ≠ Created ∨ reopen_ok env = false)).
  { destruct (plan duration sample_rate clock_time start_date) as [p|];
      [| by right; left].
    destruct (decide (create env = Created)); [| by right; right; left].
    destruct (reopen_ok env); [| by right; right; right].
    left. by exists p. }
  destruct Hcases as [(p & Hp & Hc & Hr) | Href].
  - destruct (execute_logging_sampled capsense_reader env duration sample_rate
                label clock_time start_date w p Hp Hc Hr)
      as (new & k & Ht & _ & _ & Hq & Hs & _).
    fold w' in Ht, Hs. rewrite Hs. split; [| done].
    rewrite (new_events_app _ _ _ Ht), seen_statuses_app.
    apply Forall_app. split; [| by constructor].
    destruct (tick_sleeps_quiet _ _ Hq) as [_ Hseen].
    eapply Forall_impl; [exact Hseen |]. intros seen ->.
    reflexivity.
  - destruct (execute_logging_refused capsense_reader env duration sample_rate
                label clock_time start_date w Href) as (m & Ht & _ & Hs & _).
    fold w' in Ht, Hs. rewrite Hs. split; [| done].
    rewrite (new_events_app _ _ _ Ht). by constructor.
Qed.
